(** * pygenprop: assignment results (pygenprop/results.py)

    A shallow embedding of the result-table layer of pygenprop: the cache
    synchronisation that precedes bootstrapping, the construction of the
    multi-sample property and step tables, the single-entity lookups, the
    two row filters and the tree-shaped export.

    Python dictionaries are finite maps ([gmap]), Python sets are finite
    sets ([gset]), pandas data frames are records of column labels and a
    finite map from row labels to rows of cells, and a cell is either an
    assignment string or the missing value NaN. *)

From Stdlib Require Import ZArith.
From stdpp Require Import base option list gmap sets strings fin_maps.

#[local] Set Warnings "-clear-no-such-hyp,-register-all".

Open Scope string_scope.
Open Scope Z_scope.
Open Scope list_scope.

(** ** Assignment values and table cells *)

(** Assignments are the Python strings ['YES'], ['NO'] and ['PARTIAL']. *)
Definition YES : string := "YES".
Definition NO : string := "NO".
Definition PARTIAL : string := "PARTIAL".

(** A cell of a data frame: [Some v] is the string [v], [None] is the NaN
    that pandas stores where a frame has no value. *)
Abbreviation cell := (option string).
Abbreviation NaN := (@None string).

(** ** Python exceptions *)

Inductive exn : Type := KeyError | ValueError.

Inductive outcome (A : Type) : Type :=
  | Return (a : A)
  | Raise (e : exn).
Arguments Return {A} a.
Arguments Raise {A} e.

#[global] Instance outcome_ret : MRet outcome := fun _ a => Return a.
#[global] Instance outcome_bind : MBind outcome := fun _ _ k m =>
  match m with
  | Return a => k a
  | Raise e => Raise e
  end.

(** [try: m except KeyError: h] *)
Definition try_except_KeyError {A} (m : outcome A) (h : A) : outcome A :=
  match m with
  | Return a => Return a
  | Raise KeyError => Return h
  | Raise e => Raise e
  end.

(** ** The genome properties tree (pygenprop.tree) *)

(** Modelled from the spec: pygenprop/tree.py is missing.  A Property has an
    identifier, a display name and an ordered sequence of Steps; a Step has
    a step number, a name and zero or more child Properties.  These are the
    attributes results.py reads: [id], [name], [steps], [number],
    [genome_properties]. *)
Inductive GenomeProperty : Type :=
  | mkGenomeProperty (id name : string) (steps : list Step)
with Step : Type :=
  | mkStep (number : Z) (name : string) (genome_properties : list GenomeProperty).

Definition gp_id (p : GenomeProperty) : string :=
  match p with mkGenomeProperty i _ _ => i end.
Definition gp_name (p : GenomeProperty) : string :=
  match p with mkGenomeProperty _ n _ => n end.
Definition gp_steps (p : GenomeProperty) : list Step :=
  match p with mkGenomeProperty _ _ s => s end.
Definition step_number (s : Step) : Z :=
  match s with mkStep n _ _ => n end.
Definition step_name (s : Step) : string :=
  match s with mkStep _ n _ => n end.
Definition step_genome_properties (s : Step) : list GenomeProperty :=
  match s with mkStep _ _ g => g end.

(** Induction on a property, with the hypothesis for every child property
    of every step. *)
Fixpoint GenomeProperty_nested_ind (P : GenomeProperty -> Prop)
    (IH : forall i name steps,
        Forall (fun s => Forall P (step_genome_properties s)) steps ->
        P (mkGenomeProperty i name steps))
    (p : GenomeProperty) : P p :=
  match p with
  | mkGenomeProperty i name steps =>
      IH i name steps
        ((fix on_steps (ss : list Step)
            : Forall (fun s => Forall P (step_genome_properties s)) ss :=
            match ss with
            | [] => @List.Forall_nil _ _
            | s :: ss' =>
                @List.Forall_cons _ _ s ss'
                  (match s return Forall P (step_genome_properties s) with
                   | mkStep _ _ children =>
                       (fix on_children (l : list GenomeProperty) : Forall P l :=
                          match l with
                          | [] => @List.Forall_nil _ _
                          | g :: l' =>
                              @List.Forall_cons _ _ g l'
                                (GenomeProperty_nested_ind P IH g)
                                (on_children l')
                          end) children
                   end)
                  (on_steps ss')
            end) steps)
  end.

(** Modelled from the spec: the tree exposes a designated root and can be
    iterated, which enumerates all its properties. *)
Record GenomePropertiesTree : Type := mkTree {
  root : GenomeProperty;
  tree_iter : list GenomeProperty
}.

(** ** The assignment cache (pygenprop.assign.AssignmentCache) *)

(** Modelled from the spec: pygenprop/assign.py is missing.  A cache holds a
    sample name, a mapping from property identifier to result and a mapping
    from property identifier and step number to result, the latter a dict of
    dicts as [create_step_table_rows] documents it. *)
Record AssignmentCache : Type := mkCache {
  sample_name : string;
  property_assignments : gmap string string;
  step_assignments : gmap string (gmap Z string)
}.

(** Modelled from the spec: the property identifiers known to the cache, the
    keys of its property assignments. *)
Definition genome_property_identifiers (c : AssignmentCache) : list string :=
  (map_to_list (property_assignments c)).*1.

(** Modelled from the spec: removes all entries for a given identifier. *)
Definition flush_property_from_cache (c : AssignmentCache) (identifier : string)
  : AssignmentCache :=
  {| sample_name := sample_name c;
     property_assignments := delete identifier (property_assignments c);
     step_assignments := delete identifier (step_assignments c) |}.

(** [set.symmetric_difference] *)
Definition symmetric_difference (X Y : gset string) : gset string :=
  (X ∖ Y) ∪ (Y ∖ X).

(** On cache values [deepcopy] is the identity; the store model below
    allocates the copy. *)
Definition deepcopy (c : AssignmentCache) : AssignmentCache := c.

Definition tree_identifiers (t : GenomePropertiesTree) : gset string :=
  list_to_set (gp_id <$> tree_iter t).

Definition assignment_cache_identifiers (c : AssignmentCache) : gset string :=
  list_to_set (genome_property_identifiers c).

Definition unshared_identifiers (c : AssignmentCache) (t : GenomePropertiesTree)
  : gset string :=
  symmetric_difference (tree_identifiers t) (assignment_cache_identifiers c).

Definition create_synchronized_assignment_cache
    (assignment_cache : AssignmentCache)
    (genome_properties_tree : GenomePropertiesTree) : AssignmentCache :=
  let sanitized_assignment_cache := deepcopy assignment_cache in
  foldl flush_property_from_cache sanitized_assignment_cache
    (elements (unshared_identifiers assignment_cache genome_properties_tree)).

(** ** pandas data frames *)

Section frames.
Context {K : Type} `{Countable K}.

(** A data frame with row labels in [K]: the column labels in order, and
    for each row label the cells of that row, one per column. *)
Record DataFrame : Type := mkFrame {
  columns : list string;
  rows : gmap K (list cell)
}.

(** The transposed frame: the former column labels are the index, and each
    former row is a column (a Series over that index). *)
Record DataFrameT : Type := mkFrameT {
  t_index : list string;
  t_columns : gmap K (list cell)
}.

Definition transpose (f : DataFrame) : DataFrameT :=
  {| t_index := columns f; t_columns := rows f |}.

Definition transposeT (f : DataFrameT) : DataFrame :=
  {| columns := t_index f; rows := t_columns f |}.

(** [Series.unique()]: the distinct values in order of first appearance,
    NaN included. *)
Fixpoint unique_from (seen : list cell) (s : list cell) : list cell :=
  match s with
  | [] => []
  | x :: s' =>
      if decide (x ∈ seen) then unique_from seen s'
      else x :: unique_from (x :: seen) s'
  end.

Definition unique (s : list cell) : list cell := unique_from [] s.

(** [Series.nunique()], with its default [dropna=True]: the number of
    distinct values that are not NaN. *)
Definition nunique (s : list cell) : nat :=
  length (filter (fun x : cell => is_Some x) (unique s)).

(** [frame.apply(pd.Series.nunique)]: one count per column. *)
Definition apply_nunique (f : DataFrameT) : gmap K nat :=
  nunique <$> t_columns f.

(** [counts[counts == 1].index] *)
Definition index_where_one (counts : gmap K nat) : list K :=
  (map_to_list (filter (fun kv : K * nat => kv.2 = 1%nat) counts)).*1.

(** [frame[column]] of a transposed frame. *)
Definition column_of (f : DataFrameT) (column : K) : list cell :=
  default [] (t_columns f !! column).

(** [frame.drop(labels, axis=1)] *)
Definition drop_columns (labels : list K) (f : DataFrameT) : DataFrameT :=
  {| t_index := t_index f;
     t_columns := foldr delete (t_columns f) labels |}.

(** [frame.loc[label]]: the row of that label, or [KeyError]. *)
Definition loc (f : DataFrame) (label : K) : outcome (list cell) :=
  match rows f !! label with
  | Some row => Return row
  | None => Raise KeyError
  end.

(** The row a frame contributes to an outer join at a label: its own row,
    or NaN in each of its columns. *)
Definition row_or_nan (f : DataFrame) (label : K) : list cell :=
  default (replicate (length (columns f)) NaN) (rows f !! label).

(** Outer join of two frames on their row labels. *)
Definition join_outer (a b : DataFrame) : DataFrame :=
  {| columns := columns a ++ columns b;
     rows := merge (fun ra rb =>
               match ra, rb with
               | None, None => None
               | _, _ =>
                   Some (default (replicate (length (columns a)) NaN) ra ++
                         default (replicate (length (columns b)) NaN) rb)
               end) (rows a) (rows b) |}.

(** [pd.concat(frames, axis=1)]: the outer join of all frames, left to
    right; [ValueError] when there is nothing to concatenate. *)
Definition concat_axis1 (frames : list DataFrame) : outcome DataFrame :=
  match frames with
  | [] => Raise ValueError
  | f :: fs => Return (foldl join_outer f fs)
  end.

(** [frame.columns = labels]: [ValueError] on a length mismatch. *)
Definition set_columns (f : DataFrame) (labels : list string) : outcome DataFrame :=
  if decide (length labels = length (columns f))
  then Return {| columns := labels; rows := rows f |}
  else Raise ValueError.

(** The entry of a frame at a row label and a column position. *)
Definition cell_at (f : DataFrame) (label : K) (j : nat) : option cell :=
  rows f !! label ≫= (.!! j).

(** [remove_results_with_shared_assignments] *)
Definition remove_results_with_shared_assignments
    (results : DataFrame) (only_drop_no_assignments : bool) : DataFrame :=
  let results_transposed := transpose results in
  let number_of_unique_values_per_column := apply_nunique results_transposed in
  let single_value_columns := index_where_one number_of_unique_values_per_column in
  let results_to_drop :=
    if only_drop_no_assignments
    then filter (fun column =>
                   head (unique (column_of results_transposed column)) = Some (Some NO))
                single_value_columns
    else single_value_columns in
  transposeT (drop_columns results_to_drop results_transposed).

End frames.

Arguments DataFrame K {_ _}.
Arguments DataFrameT K {_ _}.

(** ** Per-sample tables (create_assignment_tables) *)

(** [pd.DataFrame.from_dict(d, orient='index', columns=[label])] *)
Definition from_dict_index (d : gmap string string) (label : string)
  : DataFrame string :=
  {| columns := [label]; rows := (fun v => [Some v]) <$> d |}.

(** [create_step_table_rows]: the generator, as the list it yields. *)
Definition create_step_table_rows (step_assignments : gmap string (gmap Z string))
  : list (string * Z * string) :=
  '(genome_property_id, step) ← map_to_list step_assignments;
  '(step_number, step_result) ← map_to_list step;
  [(genome_property_id, step_number, step_result)].

(** [pd.DataFrame(table_rows, columns=[a, b, label])] followed by
    [set_index([a, b])]. *)
Definition step_frame (table_rows : list (string * Z * string)) (label : string)
  : DataFrame (string * Z) :=
  {| columns := [label];
     rows := list_to_map ((fun '(i, n, r) => ((i, n), [Some r])) <$> table_rows) |}.

(** ** The results object *)

Record GenomePropertiesResults : Type := mkResults {
  tree : GenomePropertiesTree;
  sample_names : list string;
  property_results : DataFrame string;
  step_results : DataFrame (string * Z)
}.

(** The export of [generate_json_tree]: a dict for a property, with keys
    property_id, name, enabled, result and children, or a dict for a leaf
    step, with keys step_id, name, enabled and result. *)
Inductive json_node : Type :=
  | PropertyNode (property_id name : string) (enabled : bool)
      (result : list cell) (children : list json_node)
  | StepNode (step_id : Z) (name : string) (enabled : bool) (result : list cell).

Section results.

(** [pygenprop.assign.assign_genome_property] is not part of results.py; the
    constructor is parametrised by it.  It updates the cache it is given and
    returns the assignment of the property.  The parameter stands for the
    calls in which it returns: results.py catches nothing around it, so an
    exception it raises leaves the constructor, and no results object is
    built. *)
Variable assign_genome_property :
  AssignmentCache -> GenomeProperty -> AssignmentCache * string.

Definition bootstrap_assignments (assignment_cache : AssignmentCache)
    (genome_properties_tree : GenomePropertiesTree) : AssignmentCache :=
  (assign_genome_property assignment_cache (root genome_properties_tree)).1.

Definition create_assignment_tables (genome_properties_tree : GenomePropertiesTree)
    (assignment_cache : AssignmentCache)
  : DataFrame string * DataFrame (string * Z) :=
  let sanitized_assignment_cache :=
    create_synchronized_assignment_cache assignment_cache genome_properties_tree in
  let assignments :=
    bootstrap_assignments sanitized_assignment_cache genome_properties_tree in
  let property_table :=
    from_dict_index (property_assignments assignments) "Property_Result" in
  let step_table :=
    step_frame (create_step_table_rows (step_assignments assignments)) "Step_Result" in
  (property_table, step_table).

(** The loop of the constructor, threading its three lists. *)
Definition collect_tables (genome_properties_tree : GenomePropertiesTree)
    (genome_properties_results : list AssignmentCache)
  : list (DataFrame string) * list (DataFrame (string * Z)) * list string :=
  foldl (fun '(property_tables, step_tables, sample_names) assignment =>
           let sample_names := sample_names ++ [sample_name assignment] in
           let '(property_table, step_table) :=
             create_assignment_tables genome_properties_tree assignment in
           (property_tables ++ [property_table], step_tables ++ [step_table],
            sample_names))
        ([], [], []) genome_properties_results.

(** [GenomePropertiesResults.__init__] *)
Definition GenomePropertiesResults_init
    (genome_properties_results : list AssignmentCache)
    (genome_properties_tree : GenomePropertiesTree)
  : outcome GenomePropertiesResults :=
  let '(property_tables, step_tables, sample_names) :=
    collect_tables genome_properties_tree genome_properties_results in
  combined_properties_table ← concat_axis1 property_tables;
  combined_step_table ← concat_axis1 step_tables;
  combined_properties_table ← set_columns combined_properties_table sample_names;
  combined_step_table ← set_columns combined_step_table sample_names;
  mret {| tree := genome_properties_tree;
          sample_names := sample_names;
          property_results := combined_properties_table;
          step_results := combined_step_table |}.

End results.

(** [frame.loc[label]] on the first level of a two-level index: the frame
    of the rows under that label, indexed by the second level, or
    [KeyError] when there is none. *)
Definition loc_level0 (f : DataFrame (string * Z)) (label : string)
  : outcome (DataFrame Z) :=
  match map_curry (M1 := gmap string) (M2 := gmap Z) (rows f) !! label with
  | Some sub => Return {| columns := columns f; rows := sub |}
  | None => Raise KeyError
  end.

Definition get_property_result (self : GenomePropertiesResults)
    (genome_property_id : string) : outcome (list cell) :=
  let property_results := property_results self in
  try_except_KeyError
    (loc property_results genome_property_id)
    (replicate (length (columns property_results)) (Some NO)).

Definition get_step_result (self : GenomePropertiesResults)
    (genome_property_id : string) (step_number : Z) : outcome (list cell) :=
  let step_results := step_results self in
  try_except_KeyError
    (sub ← loc_level0 step_results genome_property_id; loc sub step_number)
    (replicate (length (columns step_results)) (Some NO)).

Definition differing_property_results (self : GenomePropertiesResults)
  : DataFrame string :=
  remove_results_with_shared_assignments (property_results self) false.

Definition differing_step_results (self : GenomePropertiesResults)
  : DataFrame (string * Z) :=
  remove_results_with_shared_assignments (step_results self) false.

Definition supported_property_results (self : GenomePropertiesResults)
  : DataFrame string :=
  remove_results_with_shared_assignments (property_results self) true.

Definition supported_step_results (self : GenomePropertiesResults)
  : DataFrame (string * Z) :=
  remove_results_with_shared_assignments (step_results self) true.

(** [generate_json_tree]: the two loops append to [children] in order. *)
Fixpoint generate_json_tree (self : GenomePropertiesResults)
    (genome_properties_root : GenomeProperty) : outcome json_node :=
  match genome_properties_root with
  | mkGenomeProperty root_id root_name root_steps =>
      result ← get_property_result self root_id;
      children ←
        foldl (fun acc step =>
                 children ← acc;
                 match step with
                 | mkStep number name step_child_properties =>
                     match step_child_properties with
                     | [] =>
                         step_result ← get_step_result self root_id number;
                         mret (children ++ [StepNode number name false step_result])
                     | _ :: _ =>
                         foldl (fun acc child =>
                                  children ← acc;
                                  node ← generate_json_tree self child;
                                  mret (children ++ [node]))
                               (mret children) step_child_properties
                     end
                 end)
              (mret []) root_steps;
      mret (PropertyNode root_id root_name false result children)
  end.

(** [to_json], up to the serialisation by [json.dumps]: the dict with the
    keys sample_names and property_tree. *)
Definition to_json_data (self : GenomePropertiesResults)
  : outcome (list string * json_node) :=
  property_tree ← generate_json_tree self (root (tree self));
  mret (sample_names self, property_tree).

(** The single entry of a one-column frame at a label, NaN when the label
    is not a row of the frame. *)
Definition entry_or_nan {K : Type} `{Countable K} (f : DataFrame K) (label : K) : cell :=
  default NaN (rows f !! label ≫= head).

(** ** The object store *)

(** Python objects live in a store and are passed by reference.  A cache
    object refers to its two dictionaries, and the dictionary of step
    assignments refers to one inner dictionary per property.  The functions
    of this module are those above, on references. *)
Module Store.

Abbreviation loc := positive.

Inductive object : Type :=
  | PropertyDict (d : gmap string string)
  | StepsDict (d : gmap string loc)
  | StepDict (d : gmap Z string)
  | CacheObject (sample_name : string) (property_assignments step_assignments : loc).

Abbreviation heap := (gmap loc object).

Definition read_cache (h : heap) (l : loc) : option (string * loc * loc) :=
  match h !! l with
  | Some (CacheObject n p s) => Some (n, p, s)
  | _ => None
  end.

Definition read_property_dict (h : heap) (l : loc) : option (gmap string string) :=
  match h !! l with
  | Some (PropertyDict d) => Some d
  | _ => None
  end.

Definition read_steps_dict (h : heap) (l : loc) : option (gmap string loc) :=
  match h !! l with
  | Some (StepsDict d) => Some d
  | _ => None
  end.

Definition read_step_dict (h : heap) (l : loc) : option (gmap Z string) :=
  match h !! l with
  | Some (StepDict d) => Some d
  | _ => None
  end.

(** A reference is a cache when it and the references below it lead to
    objects of the right kinds. *)
Definition is_cache (h : heap) (l : loc) : Prop :=
  exists n p s dp ds,
    read_cache h l = Some (n, p, s) /\
    read_property_dict h p = Some dp /\
    read_steps_dict h s = Some ds /\
    map_Forall (fun _ il => is_Some (read_step_dict h il)) ds.

(** The cache value a reference stands for. *)
Definition view (h : heap) (l : loc) : option AssignmentCache :=
  '(n, p, s) ← read_cache h l;
  dp ← read_property_dict h p;
  ds ← read_steps_dict h s;
  Some {| sample_name := n;
          property_assignments := dp;
          step_assignments := omap (read_step_dict h) ds |}.

(** The objects a cache is made of. *)
Definition footprint (h : heap) (l : loc) : gset loc :=
  match read_cache h l with
  | Some (n, p, s) =>
      {[l; p; s]} ∪ map_to_set (fun _ il => il) (default ∅ (read_steps_dict h s))
  | None => {[l]}
  end.

(** Every object of the first store is the same object in the second. *)
Definition preserved (h h' : heap) : Prop :=
  forall l, l ∈ dom h -> h' !! l = h !! l.

Definition alloc (h : heap) (o : object) : heap * loc :=
  let l := fresh (dom h) in (<[l := o]> h, l).

(** One entry of the dictionary of step assignments under [deepcopy]: an
    inner dictionary that was copied already is taken from the memo. *)
Definition deepcopy_step (i : string) (il : loc)
    (state : option (heap * gmap loc loc * gmap string loc))
  : option (heap * gmap loc loc * gmap string loc) :=
  '(h, memo, ds) ← state;
  match memo !! il with
  | Some il' => Some (h, memo, <[i := il']> ds)
  | None =>
      d ← read_step_dict h il;
      let '(h, il') := alloc h (StepDict d) in
      Some (h, <[il := il']> memo, <[i := il']> ds)
  end.

(** [copy.deepcopy] of a cache: every object of the cache is copied into a
    new object. *)
Definition deepcopy (h : heap) (l : loc) : option (heap * loc) :=
  '(n, p, s) ← read_cache h l;
  dp ← read_property_dict h p;
  ds ← read_steps_dict h s;
  let '(h, p') := alloc h (PropertyDict dp) in
  '(h, _, ds') ← map_fold deepcopy_step (Some (h, ∅, ∅)) ds;
  let '(h, s') := alloc h (StepsDict ds') in
  let '(h, l') := alloc h (CacheObject n p' s') in
  Some (h, l').

Definition genome_property_identifiers (h : heap) (l : loc) : option (list string) :=
  '(_, p, _) ← read_cache h l;
  dp ← read_property_dict h p;
  Some (map_to_list dp).*1.

(** Modelled from the spec: removes all entries for a given identifier,
    in place. *)
Definition flush_property_from_cache (h : heap) (l : loc) (identifier : string)
  : option heap :=
  '(_, p, s) ← read_cache h l;
  dp ← read_property_dict h p;
  let h := <[p := PropertyDict (delete identifier dp)]> h in
  ds ← read_steps_dict h s;
  Some (<[s := StepsDict (delete identifier ds)]> h).

Definition create_synchronized_assignment_cache (h : heap) (assignment_cache : loc)
    (genome_properties_tree : GenomePropertiesTree) : option (heap * loc) :=
  identifiers ← genome_property_identifiers h assignment_cache;
  let unshared_identifiers :=
    symmetric_difference (tree_identifiers genome_properties_tree)
                         (list_to_set identifiers) in
  '(h, sanitized_assignment_cache) ← deepcopy h assignment_cache;
  h ← foldl (fun state identifier =>
               h ← state;
               flush_property_from_cache h sanitized_assignment_cache identifier)
            (Some h) (elements unshared_identifiers);
  Some (h, sanitized_assignment_cache).

(** A store with the cache of the reconciliation example at reference 3;
    the properties B and D share one inner dictionary. *)
Definition example_heap : heap :=
  {[ 1%positive := PropertyDict {[ "B" := YES; "C" := NO; "D" := PARTIAL ]};
     2%positive := StepsDict {[ "B" := 4%positive; "D" := 4%positive ]};
     3%positive := CacheObject "sample" 1%positive 2%positive;
     4%positive := StepDict {[ 1 := YES ]} ]}.

End Store.

(** ** The assignment engine, for worked examples *)

(** Modelled from the spec: [AssignmentCache.cache_property_assignment] of
    the missing pygenprop/assign.py; writes the result of a property. *)
Definition cache_property_assignment (c : AssignmentCache) (i r : string)
  : AssignmentCache :=
  {| sample_name := sample_name c;
     property_assignments := <[i := r]> (property_assignments c);
     step_assignments := step_assignments c |}.

(** Modelled from the spec: [AssignmentCache.cache_step_assignment] of the
    missing pygenprop/assign.py; writes the result of a step of a property. *)
Definition cache_step_assignment (c : AssignmentCache) (i : string) (n : Z)
    (r : string) : AssignmentCache :=
  {| sample_name := sample_name c;
     property_assignments := property_assignments c;
     step_assignments :=
       <[i := <[n := r]> (default ∅ (step_assignments c !! i))]> (step_assignments c) |}.

(** Modelled from the spec: the three-way threshold. YES iff all results
    are YES, NO iff none is above NO, PARTIAL otherwise; no result at all
    combines to NO. *)
Definition combine_results (results : list string) : string :=
  match results with
  | [] => NO
  | _ :: _ =>
      if forallb (String.eqb YES) results then YES
      else if forallb (String.eqb NO) results then NO
      else PARTIAL
  end.

(** Modelled from the spec: [assign_genome_property] of the missing
    pygenprop/assign.py, with every step required and the three-way
    threshold as the requirement of every step.  A property that already
    has a result in the cache is not recomputed; otherwise each step is
    assigned, from its child properties or from the cached leaf result (NO
    when absent), the step results are combined, and the results of the
    property and of its steps are written into the cache. *)
Fixpoint spec_assign_genome_property (cache : AssignmentCache)
    (genome_property : GenomeProperty) : AssignmentCache * string :=
  match genome_property with
  | mkGenomeProperty i _ steps =>
      match property_assignments cache !! i with
      | Some cached => (cache, cached)
      | None =>
          let '(cache, step_results) :=
            foldl (fun '(cache, step_results) step =>
                     match step with
                     | mkStep n _ [] =>
                         let r := default NO (step_assignments cache !! i ≫= (.!! n)) in
                         (cache_step_assignment cache i n r, step_results ++ [r])
                     | mkStep n _ children =>
                         let '(cache, child_results) :=
                           foldl (fun '(cache, child_results) child =>
                                    let '(cache, r) :=
                                      spec_assign_genome_property cache child in
                                    (cache, child_results ++ [r]))
                                 (cache, []) children in
                         let r := combine_results child_results in
                         (cache_step_assignment cache i n r, step_results ++ [r])
                     end)
                  (cache, []) steps in
          let r := combine_results step_results in
          (cache_property_assignment cache i r, r)
      end
  end.

Module Example.

Definition leaf_property (i : string) : GenomeProperty :=
  mkGenomeProperty i i [mkStep 1 "evidence" []].

Definition parent_property (i : string) (child : GenomeProperty) : GenomeProperty :=
  mkGenomeProperty i i [mkStep 1 "child" [child]].

Definition B : GenomeProperty := leaf_property "B".
Definition A : GenomeProperty := parent_property "A" B.
Definition D : GenomeProperty := leaf_property "D".
Definition C : GenomeProperty := parent_property "C" D.
Definition F : GenomeProperty := leaf_property "F".
Definition E : GenomeProperty := parent_property "E" F.

Definition ROOT : GenomeProperty :=
  mkGenomeProperty "ROOT" "root"
    [mkStep 1 "first" [A]; mkStep 2 "second" [C]; mkStep 3 "third" [E]].

(** ROOT has the three branches A over B, C over D and E over F. *)
Definition example_tree : GenomePropertiesTree :=
  {| root := ROOT; tree_iter := [ROOT; A; B; C; D; E; F] |}.

(** The first sample knows A and D, the second knows C and E. *)
Definition sample1 : AssignmentCache :=
  {| sample_name := "sample1";
     property_assignments := {[ "A" := YES; "D" := YES ]};
     step_assignments := ∅ |}.

Definition sample2 : AssignmentCache :=
  {| sample_name := "sample2";
     property_assignments := {[ "C" := NO; "E" := NO ]};
     step_assignments := ∅ |}.

(** The tables the constructor builds from the two samples. *)
Definition example_property_table : DataFrame string :=
  {| columns := ["sample1"; "sample2"];
     rows := {[ "ROOT" := [Some PARTIAL; Some NO];
                "A" := [Some YES; Some NO];
                "B" := [NaN; Some NO];
                "C" := [Some YES; Some NO];
                "D" := [Some YES; NaN];
                "E" := [Some NO; Some NO];
                "F" := [Some NO; NaN] ]} |}.

Definition example_step_table : DataFrame (string * Z) :=
  {| columns := ["sample1"; "sample2"];
     rows := {[ ("ROOT", 1) := [Some YES; Some NO];
                ("ROOT", 2) := [Some YES; Some NO];
                ("ROOT", 3) := [Some NO; Some NO];
                ("A", 1) := [NaN; Some NO];
                ("B", 1) := [NaN; Some NO];
                ("C", 1) := [Some YES; NaN];
                ("E", 1) := [Some NO; NaN];
                ("F", 1) := [Some NO; NaN] ]} |}.

Definition example_results : GenomePropertiesResults :=
  {| tree := example_tree;
     sample_names := ["sample1"; "sample2"];
     property_results := example_property_table;
     step_results := example_step_table |}.

(** The tree and the cache of the reconciliation example: the tree has the
    identifiers A, B and C, the cache B, C and D. *)
Definition tree_ABC : GenomePropertiesTree :=
  {| root := mkGenomeProperty "A" "a"
               [mkStep 1 "b" [leaf_property "B"]; mkStep 2 "c" [leaf_property "C"]];
     tree_iter := [mkGenomeProperty "A" "a"
                     [mkStep 1 "b" [leaf_property "B"];
                      mkStep 2 "c" [leaf_property "C"]];
                   leaf_property "B"; leaf_property "C"] |}.

Definition cache_BCD : AssignmentCache :=
  {| sample_name := "sample";
     property_assignments := {[ "B" := YES; "C" := NO; "D" := PARTIAL ]};
     step_assignments := {[ "B" := {[ 1 := YES ]}; "D" := {[ 1 := YES ]} ]} |}.

End Example.

(** ** The export, as the specification words it *)

(** The per-sample vector of a property: its row of the property table, or
    NO once per column. *)
Definition property_vector (self : GenomePropertiesResults) (i : string) : list cell :=
  default (replicate (length (columns (property_results self))) (Some NO))
          (rows (property_results self) !! i).

(** The per-sample vector of a step: its row of the step table, or NO once
    per column. *)
Definition step_vector (self : GenomePropertiesResults) (i : string) (n : Z)
  : list cell :=
  default (replicate (length (columns (step_results self))) (Some NO))
          (rows (step_results self) !! (i, n)).

(** The nested structure that mirrors the hierarchy: a property node carries
    its identifier, its name and its vector; its children are, step by step,
    the subtrees of the child properties of the step, or the leaf of the
    step when it has no child property. *)
Fixpoint mirror_tree (self : GenomePropertiesResults) (p : GenomeProperty)
  : json_node :=
  match p with
  | mkGenomeProperty i name steps =>
      PropertyNode i name false (property_vector self i)
        (flat_map (fun step =>
                     match step with
                     | mkStep n step_name [] =>
                         [StepNode n step_name false (step_vector self i n)]
                     | mkStep _ _ children => map (mirror_tree self) children
                     end) steps)
  end.

Definition node_enabled (node : json_node) : bool :=
  match node with
  | PropertyNode _ _ enabled _ _ => enabled
  | StepNode _ _ enabled _ => enabled
  end.

(** A node and all the nodes below it. *)
Fixpoint subnodes (node : json_node) : list json_node :=
  node :: match node with
          | PropertyNode _ _ _ _ children => flat_map subnodes children
          | StepNode _ _ _ _ => []
          end.

(** ** Properties of rows *)

(** All cells of a row are the same. *)
Definition all_identical (row : list cell) : Prop :=
  forall x y, x ∈ row -> y ∈ row -> x = y.

(** All cells of a row are the string ['NO']. *)
Definition all_NO (row : list cell) : Prop :=
  forall x, x ∈ row -> x = Some NO.

(** One string occurs in a row, and every other cell is that string or
    NaN. *)
Definition one_value (row : list cell) : Prop :=
  exists v, Some v ∈ row /\ forall x, x ∈ row -> x = Some v \/ x = NaN.


Section dropped_labels.
Context {K : Type} `{Countable K}.

(** The labels dropped by [remove_results_with_shared_assignments]. *)
Definition dropped (f : DataFrame K) (only_drop_no_assignments : bool) (k : K) : Prop :=
  exists row, rows f !! k = Some row /\ nunique row = 1%nat /\
    (only_drop_no_assignments = true -> head row = Some (Some NO)).

End dropped_labels.

(** ** The hierarchy and the export, flattened *)

Definition node_result (node : json_node) : list cell :=
  match node with
  | PropertyNode _ _ _ result _ => result
  | StepNode _ _ _ result => result
  end.

(** The identifiers of the property nodes of an export, depth first. *)
Fixpoint exported_property_ids (node : json_node) : list string :=
  match node with
  | PropertyNode i _ _ _ children => i :: flat_map exported_property_ids children
  | StepNode _ _ _ _ => []
  end.

(** The step numbers of the leaves of an export, depth first. *)
Fixpoint exported_step_ids (node : json_node) : list Z :=
  match node with
  | PropertyNode _ _ _ _ children => flat_map exported_step_ids children
  | StepNode n _ _ _ => [n]
  end.

(** The identifiers of a property and of the properties below it, depth
    first, one for each path to a property. *)
Fixpoint property_occurrences (p : GenomeProperty) : list string :=
  match p with
  | mkGenomeProperty i _ steps =>
      i :: flat_map (fun step =>
                       match step with
                       | mkStep _ _ children => flat_map property_occurrences children
                       end) steps
  end.

(** The numbers of the steps without child properties, of a property and
    of the properties below it, depth first. *)
Fixpoint childless_steps (p : GenomeProperty) : list Z :=
  match p with
  | mkGenomeProperty _ _ steps =>
      flat_map (fun step =>
                  match step with
                  | mkStep n _ [] => [n]
                  | mkStep _ _ children => flat_map childless_steps children
                  end) steps
  end.

(** * Theorems *)

Section synchronisation.

Lemma flush_all_sample_name (ids : list string) (c : AssignmentCache) :
  sample_name (foldl flush_property_from_cache c ids) = sample_name c.
Proof.
  revert c. induction ids as [|i ids IH]; intros c; simpl; [done|].
  by rewrite IH.
Qed.

Lemma flush_all_absent (ids : list string) (c : AssignmentCache) (i : string) :
  property_assignments c !! i = None -> step_assignments c !! i = None ->
  property_assignments (foldl flush_property_from_cache c ids) !! i = None /\
  step_assignments (foldl flush_property_from_cache c ids) !! i = None.
Proof.
  revert c. induction ids as [|j ids IH]; intros c Hp Hs; [done|].
  cbn [foldl]. apply IH; simpl; apply lookup_delete_None; by right.
Qed.

Lemma flush_all_flushed (ids : list string) (c : AssignmentCache) (i : string) :
  i ∈ ids ->
  property_assignments (foldl flush_property_from_cache c ids) !! i = None /\
  step_assignments (foldl flush_property_from_cache c ids) !! i = None.
Proof.
  revert c. induction ids as [|j ids IH]; intros c Hin; [by inversion Hin|].
  cbn [foldl]. apply elem_of_cons in Hin as [->|Hin]; [|by apply IH].
  apply flush_all_absent; simpl; apply lookup_delete_eq.
Qed.

Lemma flush_all_kept (ids : list string) (c : AssignmentCache) (i : string) :
  i ∉ ids ->
  property_assignments (foldl flush_property_from_cache c ids) !! i
    = property_assignments c !! i /\
  step_assignments (foldl flush_property_from_cache c ids) !! i
    = step_assignments c !! i.
Proof.
  revert c. induction ids as [|j ids IH]; intros c Hin; [done|].
  apply not_elem_of_cons in Hin as [Hj Hin]. cbn [foldl].
  destruct (IH (flush_property_from_cache c j) Hin) as [-> ->]. simpl.
  by rewrite !lookup_delete_ne.
Qed.

Lemma elem_of_assignment_cache_identifiers (c : AssignmentCache) (i : string) :
  i ∈ assignment_cache_identifiers c ↔ is_Some (property_assignments c !! i).
Proof.
  unfold assignment_cache_identifiers, genome_property_identifiers.
  rewrite elem_of_list_to_set, list_elem_of_fmap. split.
  - intros [[k v] [-> Hkv]]. apply elem_of_map_to_list in Hkv. by exists v.
  - intros [v Hv]. exists (i, v). split; [done|]. by apply elem_of_map_to_list.
Qed.

Lemma assignment_cache_identifiers_dom (c : AssignmentCache) :
  assignment_cache_identifiers c = dom (property_assignments c).
Proof.
  apply set_eq; intros i.
  by rewrite elem_of_assignment_cache_identifiers, elem_of_dom.
Qed.

Lemma elem_of_unshared_identifiers (c : AssignmentCache) (t : GenomePropertiesTree)
    (i : string) :
  i ∈ unshared_identifiers c t <->
  (i ∈ tree_identifiers t /\ (i ∉ assignment_cache_identifiers c)) \/
  (i ∈ assignment_cache_identifiers c /\ (i ∉ tree_identifiers t)).
Proof. unfold unshared_identifiers, symmetric_difference. set_solver. Qed.

(** C1 (amended): the identifiers of the synchronized cache, the keys of
    its property entries, are exactly the identifiers found in both the
    tree and the input cache; the entries of those identifiers are the
    input's; every identifier of the symmetric difference has neither a
    property entry nor a step entry left; and the step entries left are
    those of the input outside the symmetric difference, so that a step
    entry of an identifier found in neither the tree nor the identifiers of
    the cache stays. *)
Theorem create_synchronized_assignment_cache_shared
    (c : AssignmentCache) (t : GenomePropertiesTree) :
  let s := create_synchronized_assignment_cache c t in
  assignment_cache_identifiers s
    = tree_identifiers t ∩ assignment_cache_identifiers c /\
  dom (property_assignments s)
    = tree_identifiers t ∩ assignment_cache_identifiers c /\
  (forall i, i ∈ tree_identifiers t ∩ assignment_cache_identifiers c ->
     property_assignments s !! i = property_assignments c !! i /\
     step_assignments s !! i = step_assignments c !! i) /\
  (forall i, i ∈ unshared_identifiers c t ->
     property_assignments s !! i = None /\ step_assignments s !! i = None) /\
  dom (step_assignments s)
    = dom (step_assignments c) ∖ unshared_identifiers c t /\
  (forall i, i ∉ tree_identifiers t -> i ∉ assignment_cache_identifiers c ->
     step_assignments s !! i = step_assignments c !! i).
Proof.
  intros s.
  assert (Hkept : forall i, i ∉ unshared_identifiers c t ->
     property_assignments s !! i = property_assignments c !! i /\
     step_assignments s !! i = step_assignments c !! i).
  { intros i Hi. apply flush_all_kept. by rewrite elem_of_elements. }
  assert (Hgone : forall i, i ∈ unshared_identifiers c t ->
     property_assignments s !! i = None /\ step_assignments s !! i = None).
  { intros i Hi. apply flush_all_flushed. by rewrite elem_of_elements. }
  assert (Hids : assignment_cache_identifiers s
                 = tree_identifiers t ∩ assignment_cache_identifiers c).
  { apply set_eq; intros i. rewrite elem_of_intersection.
    rewrite !elem_of_assignment_cache_identifiers.
    destruct (decide (i ∈ unshared_identifiers c t)) as [Hi|Hi].
    - destruct (Hgone i Hi) as [-> _].
      apply elem_of_unshared_identifiers in Hi.
      rewrite elem_of_assignment_cache_identifiers in Hi.
      split; [by intros [? ?]|]. intros [? ?]. naive_solver.
    - destruct (Hkept i Hi) as [-> _].
      rewrite elem_of_unshared_identifiers in Hi.
      rewrite elem_of_assignment_cache_identifiers in Hi.
      split; [|naive_solver]. intros Hs. split; [|done].
      destruct (decide (i ∈ tree_identifiers t)); [done|]. naive_solver. }
  split_and!; [done| |intros i Hi; apply Hkept|done| |].
  - by rewrite <- assignment_cache_identifiers_dom.
  - rewrite elem_of_unshared_identifiers. set_solver.
  - apply set_eq. intros i. rewrite elem_of_difference, !elem_of_dom.
    destruct (decide (i ∈ unshared_identifiers c t)) as [Hu|Hu].
    + destruct (Hgone i Hu) as [_ ->]. split; [by intros [? ?]|by intros [_ ?]].
    + destruct (Hkept i Hu) as [_ ->]. naive_solver.
  - intros i Ht Hc. apply Hkept.
    rewrite elem_of_unshared_identifiers. naive_solver.
Qed.

End synchronisation.

(** ** Series: unique and nunique *)

Section series.

Lemma elem_of_unique_from (seen s : list cell) (x : cell) :
  x ∈ unique_from seen s <-> x ∈ s /\ x ∉ seen.
Proof.
  revert seen. induction s as [|y s IH]; intros seen; simpl.
  - split; [by intros ?%elem_of_nil|by intros [?%elem_of_nil _]].
  - destruct (decide (y ∈ seen)) as [Hy|Hy].
    + rewrite IH, elem_of_cons. split; [naive_solver|].
      intros [[->|?] ?]; naive_solver.
    + rewrite !elem_of_cons, IH, elem_of_cons. split.
      * intros [->|[? ?]]; naive_solver.
      * intros [[->|?] ?]; [by left|].
        destruct (decide (x = y)); [by left|right; naive_solver].
Qed.

Lemma NoDup_unique_from (seen s : list cell) : NoDup (unique_from seen s).
Proof.
  revert seen. induction s as [|y s IH]; intros seen; simpl; [constructor|].
  destruct (decide (y ∈ seen)); [apply IH|].
  constructor; [|apply IH].
  rewrite elem_of_unique_from, elem_of_cons. naive_solver.
Qed.

Lemma elem_of_unique (s : list cell) (x : cell) : x ∈ unique s <-> x ∈ s.
Proof.
  unfold unique. rewrite elem_of_unique_from. split; [naive_solver|].
  intros ?; split; [done|]. apply not_elem_of_nil.
Qed.

Lemma head_unique (s : list cell) : head (unique s) = head s.
Proof.
  unfold unique. destruct s as [|x s]; simpl; [done|].
  destruct (decide (x ∈ [])) as [Hx|Hx]; [by apply elem_of_nil in Hx|done].
Qed.

(** The values counted by [nunique]. *)
Lemma elem_of_counted (s : list cell) (x : cell) :
  x ∈ filter (fun x : cell => is_Some x) (unique s) <-> x ∈ s /\ is_Some x.
Proof. rewrite list_elem_of_filter, elem_of_unique. naive_solver. Qed.

Lemma NoDup_counted (s : list cell) :
  NoDup (filter (fun x : cell => is_Some x) (unique s)).
Proof. apply NoDup_filter, NoDup_unique_from. Qed.

(** [nunique] is one exactly when one string occurs and every other cell is
    that string or NaN. *)
Lemma nunique_one (s : list cell) :
  nunique s = 1%nat <->
  exists v, Some v ∈ s /\ forall x, x ∈ s -> x = Some v \/ x = NaN.
Proof.
  unfold nunique.
  pose proof (elem_of_counted s) as Hel. pose proof (NoDup_counted s) as Hnd.
  destruct (filter _ (unique s)) as [|a [|b u]] eqn:Hu; simpl.
  - split; [done|]. intros (v & Hv & _).
    assert (Some v ∈ @nil cell) as Hin by (apply Hel; eauto).
    by apply elem_of_nil in Hin.
  - split; [intros _|done].
    destruct (proj1 (Hel a) ltac:(left)) as [Ha [v ->]].
    exists v. split; [done|]. intros [w|] Hx; [left|by right].
    assert (Some w ∈ [Some v]) as Hin by (apply Hel; eauto).
    by apply list_elem_of_singleton in Hin.
  - split; [done|]. intros (v & Hv & Hall).
    destruct (proj1 (Hel a) ltac:(left)) as [Ha [va ->]].
    destruct (proj1 (Hel b) ltac:(right; left)) as [Hb [vb ->]].
    destruct (Hall _ Ha) as [Ha'|]; [|done].
    destruct (Hall _ Hb) as [Hb'|]; [|done].
    apply NoDup_cons in Hnd as [Hnd _]. exfalso. apply Hnd.
    rewrite Ha', Hb'. left.
Qed.

End series.

(** ** The row filters *)

Section filters.
Context {K : Type} `{Countable K}.

Lemma elem_of_index_where_one (counts : gmap K nat) (k : K) :
  k ∈ index_where_one counts <-> counts !! k = Some 1%nat.
Proof.
  unfold index_where_one. rewrite list_elem_of_fmap. split.
  - intros [[k' n] [-> Hkn]]. apply elem_of_map_to_list in Hkn.
    apply map_lookup_filter_Some in Hkn as [Hkn Hn]. simpl in *. by subst.
  - intros Hk. exists (k, 1%nat). split; [done|].
    apply elem_of_map_to_list, map_lookup_filter_Some. done.
Qed.

Lemma lookup_drop_in (m : gmap K (list cell)) (labels : list K) (k : K) :
  k ∈ labels -> foldr delete m labels !! k = None.
Proof.
  induction labels as [|l labels IH]; intros Hk; [by apply elem_of_nil in Hk|].
  simpl. destruct (decide (k = l)) as [->|Hne]; [apply lookup_delete_eq|].
  rewrite lookup_delete_ne by done. apply IH.
  apply elem_of_cons in Hk as [?|?]; done.
Qed.

Lemma lookup_drop_notin (m : gmap K (list cell)) (labels : list K) (k : K) :
  k ∉ labels -> foldr delete m labels !! k = m !! k.
Proof.
  induction labels as [|l labels IH]; intros Hk; [done|].
  apply not_elem_of_cons in Hk as [Hne Hk]. simpl.
  rewrite lookup_delete_ne by done. by apply IH.
Qed.

Lemma remove_results_lookup_dropped (f : DataFrame K) (b : bool) (k : K) :
  dropped f b k -> rows (remove_results_with_shared_assignments f b) !! k = None.
Proof.
  intros (row & Hrow & Hn & Hno).
  unfold remove_results_with_shared_assignments. simpl.
  apply lookup_drop_in.
  assert (k ∈ index_where_one (apply_nunique (transpose f))) as Hk.
  { apply elem_of_index_where_one. unfold apply_nunique. simpl.
    by rewrite lookup_fmap, Hrow; simpl; rewrite Hn. }
  destruct b; [|done].
  apply list_elem_of_filter. split; [|done].
  unfold column_of; simpl. rewrite Hrow; simpl. rewrite head_unique. by apply Hno.
Qed.

Lemma remove_results_lookup_kept (f : DataFrame K) (b : bool) (k : K) :
  ~ dropped f b k ->
  rows (remove_results_with_shared_assignments f b) !! k = rows f !! k.
Proof.
  intros Hnd. unfold remove_results_with_shared_assignments. simpl.
  apply lookup_drop_notin. intros Hk. apply Hnd.
  assert (k ∈ index_where_one (apply_nunique (transpose f)) ->
          exists row, rows f !! k = Some row /\ nunique row = 1%nat) as Hone.
  { rewrite elem_of_index_where_one. unfold apply_nunique; simpl.
    rewrite lookup_fmap. destruct (rows f !! k) as [row|]; simpl; [|done].
    intros [= Hn]. eauto. }
  destruct b.
  - apply list_elem_of_filter in Hk as [Hno Hk].
    destruct (Hone Hk) as (row & Hrow & Hn). exists row. split_and!; [done..|].
    intros _. unfold column_of in Hno; simpl in Hno.
    rewrite Hrow in Hno; simpl in Hno. by rewrite head_unique in Hno.
  - destruct (Hone Hk) as (row & Hrow & Hn). exists row. by split_and!.
Qed.

Lemma remove_results_columns (f : DataFrame K) (b : bool) :
  columns (remove_results_with_shared_assignments f b) = columns f.
Proof. done. Qed.

Lemma dropped_supported_differing (f : DataFrame K) (k : K) :
  dropped f true k -> dropped f false k.
Proof. intros (row & ? & ? & ?). exists row. by split_and!. Qed.

Lemma nunique_one_complete (row : list cell) :
  NaN ∉ row -> row ≠ [] -> nunique row = 1%nat <-> all_identical row.
Proof.
  intros Hnan Hne. rewrite nunique_one. split.
  - intros (v & _ & Hall) x y Hx Hy.
    destruct (Hall x Hx) as [->| ->]; [|done].
    destruct (Hall y Hy) as [->| ->]; done.
  - intros Hall. destruct row as [|[v|] row]; [done| |].
    + exists v. split; [left|]. intros x Hx. left. apply Hall; [done|left].
    + exfalso. apply Hnan. left.
Qed.

Lemma all_NO_head (row : list cell) :
  NaN ∉ row -> row ≠ [] ->
  nunique row = 1%nat /\ head row = Some (Some NO) <-> all_NO row.
Proof.
  intros Hnan Hne. rewrite nunique_one_complete by done. split.
  - intros [Hall Hhd] x Hx. destruct row as [|y row]; [done|].
    simpl in Hhd. injection Hhd as ->. apply Hall; [done|left].
  - intros Hall. split.
    + intros x y Hx Hy. by rewrite (Hall x Hx), (Hall y Hy).
    + destruct row as [|y row]; [done|]. simpl. f_equal. apply Hall. left.
Qed.

(** A filtered frame holds rows of the frame it was given, unchanged. *)
Lemma remove_results_subseteq (f : DataFrame K) (b : bool) :
  rows (remove_results_with_shared_assignments f b) ⊆ rows f.
Proof.
  apply map_subseteq_spec. intros k row Hk.
  destruct (rows f !! k) as [row'|] eqn:Hrow.
  - destruct (decide (nunique row' = 1%nat /\
                      (b = true -> head row' = Some (Some NO)))) as [Hd|Hd].
    + rewrite remove_results_lookup_dropped in Hk; [done|].
      exists row'. by destruct Hd.
    + rewrite remove_results_lookup_kept in Hk; [by rewrite <- Hk|].
      intros (r & Hr & ? & ?). rewrite Hrow in Hr. injection Hr as <-. by apply Hd.
  - rewrite remove_results_lookup_kept in Hk; [by rewrite Hrow in Hk|].
    intros (r & Hr & _). by rewrite Hrow in Hr.
Qed.

(** Among the rows without NaN, the filter drops exactly those whose
    values are all identical. *)
Lemma remove_shared_of_complete_rows
    (f : DataFrame K) (k : K) (row : list cell) :
  rows f !! k = Some row -> NaN ∉ row -> row ≠ [] ->
  let differing := remove_results_with_shared_assignments f false in
  (rows differing !! k = None <-> all_identical row) /\
  (rows differing !! k = Some row <-> ~ all_identical row).
Proof.
  intros Hrow Hnan Hne differing.
  assert (dropped f false k <-> all_identical row) as Hd.
  { rewrite <- nunique_one_complete by done. split.
    - intros (r & Hr & ? & _). rewrite Hrow in Hr. by injection Hr as <-.
    - intros ?. exists row. by split_and!. }
  split; split.
  - intros Hk. clear Hd.
    destruct (decide (nunique row = 1%nat)) as [Hn|Hn].
    + by apply nunique_one_complete.
    + unfold differing in Hk. rewrite remove_results_lookup_kept in Hk.
      * by rewrite Hrow in Hk.
      * intros (r & Hr & ? & _). rewrite Hrow in Hr. by injection Hr as <-.
  - intros Hall. by apply remove_results_lookup_dropped, Hd.
  - intros Hk Hall. apply Hd in Hall.
    unfold differing in Hk. by rewrite remove_results_lookup_dropped in Hk.
  - intros Hall. unfold differing. rewrite remove_results_lookup_kept; [done|].
    by rewrite Hd.
Qed.

(** Among the rows without NaN, the filter that only drops NO assignments
    drops exactly those whose values are all NO. *)
Lemma remove_NO_of_complete_rows
    (f : DataFrame K) (k : K) (row : list cell) :
  rows f !! k = Some row -> NaN ∉ row -> row ≠ [] ->
  let supported := remove_results_with_shared_assignments f true in
  (rows supported !! k = None <-> all_NO row) /\
  (rows supported !! k = Some row <-> ~ all_NO row).
Proof.
  intros Hrow Hnan Hne supported.
  assert (dropped f true k <-> all_NO row) as Hd.
  { rewrite <- all_NO_head by done. split.
    - intros (r & Hr & ? & ?). rewrite Hrow in Hr. injection Hr as <-. auto.
    - intros [? ?]. exists row. by split_and!. }
  assert (~ dropped f true k -> rows supported !! k = Some row) as Hkept.
  { intros ?. unfold supported. by rewrite remove_results_lookup_kept. }
  assert (dropped f true k -> rows supported !! k = None) as Hgone.
  { apply remove_results_lookup_dropped. }
  assert (Decision (all_NO row)) as [Hall|Hall].
  { destruct (decide (Forall (fun x : cell => x = Some NO) row)) as [HF|HF].
    - left. intros x Hx. by eapply Forall_forall in HF.
    - right. intros Hall. apply HF, Forall_forall. done. }
  - pose proof (Hgone (proj2 Hd Hall)) as Hk. rewrite Hk. split; split; try done.
  - assert (~ dropped f true k) as Hnd by (by rewrite Hd).
    rewrite (Hkept Hnd). split; split; try done.
Qed.

(** What the filter keeps when it drops every single-valued row, it keeps
    when it only drops NO assignments. *)
Lemma remove_shared_subseteq_remove_NO (f : DataFrame K) :
  rows (remove_results_with_shared_assignments f false)
    ⊆ rows (remove_results_with_shared_assignments f true).
Proof.
  apply map_subseteq_spec. intros k row Hk.
  assert (~ dropped f false k) as Hnd.
  { intros Hd. by rewrite (remove_results_lookup_dropped _ _ _ Hd) in Hk. }
  rewrite remove_results_lookup_kept in Hk by done.
  rewrite remove_results_lookup_kept; [done|].
  intros Hd. by apply Hnd, dropped_supported_differing.
Qed.


(** What the filter drops when it drops every single-valued row: the rows
    in which one string occurs beside, at most, NaN. *)
Lemma remove_shared_exactly (f : DataFrame K) (k : K) (row : list cell) :
  rows f !! k = Some row ->
  let differing := remove_results_with_shared_assignments f false in
  (rows differing !! k = None <-> one_value row) /\
  (rows differing !! k = Some row <-> ~ one_value row) /\
  (forall v w, Some v ∈ row -> Some w ∈ row -> v ≠ w ->
     rows differing !! k = Some row) /\
  (NaN ∉ row -> row ≠ [] -> (rows differing !! k = None <-> all_identical row)).
Proof.
  intros Hrow differing.
  assert (dropped f false k <-> one_value row) as Hd.
  { unfold one_value. rewrite <- nunique_one. split.
    - intros (r & Hr & ? & _). rewrite Hrow in Hr. by injection Hr as <-.
    - intros ?. exists row. by split_and!. }
  assert (one_value row -> rows differing !! k = None) as Hgone.
  { intros ?. by apply remove_results_lookup_dropped, Hd. }
  assert (~ one_value row -> rows differing !! k = Some row) as Hkept.
  { intros Hn. unfold differing. rewrite remove_results_lookup_kept; [done|].
    by rewrite Hd. }
  assert (one_value row \/ ~ one_value row) as Hdec.
  { unfold one_value. rewrite <- nunique_one.
    destruct (decide (nunique row = 1%nat)); [by left|by right]. }
  assert (rows differing !! k = None <-> one_value row) as Hnone.
  { split; [|done]. intros Hk. destruct Hdec as [?|Hn]; [done|].
    by rewrite (Hkept Hn) in Hk. }
  split_and!; [done| | |].
  - split; [|done]. intros Hk Hone. by rewrite (Hgone Hone) in Hk.
  - intros v w Hv Hw Hne. apply Hkept. intros (u & _ & Hall).
    destruct (Hall _ Hv) as [[= ->]|?]; [|done].
    destruct (Hall _ Hw) as [[= ->]|?]; done.
  - intros Hnan Hne. rewrite Hnone. unfold one_value. rewrite <- nunique_one.
    by apply nunique_one_complete.
Qed.


End filters.

(** C4 (amended): in the property table and in the step table, the
    differential filter drops exactly the rows in which one value occurs
    and every other entry is that value or NaN, and keeps every other row
    with its values.  So a row that holds two different values is kept,
    whether or not it has missing entries, and among the rows that have a
    value in every sample column the rows dropped are exactly those whose
    values are all identical. *)
Theorem differing_results_exactly (self : GenomePropertiesResults) :
  (forall k row,
     rows (property_results self) !! k = Some row ->
     (rows (differing_property_results self) !! k = None <-> one_value row) /\
     (rows (differing_property_results self) !! k = Some row <-> ~ one_value row) /\
     (forall v w, Some v ∈ row -> Some w ∈ row -> v ≠ w ->
        rows (differing_property_results self) !! k = Some row) /\
     (NaN ∉ row -> row ≠ [] ->
      (rows (differing_property_results self) !! k = None <-> all_identical row)))
  /\
  (forall k row,
     rows (step_results self) !! k = Some row ->
     (rows (differing_step_results self) !! k = None <-> one_value row) /\
     (rows (differing_step_results self) !! k = Some row <-> ~ one_value row) /\
     (forall v w, Some v ∈ row -> Some w ∈ row -> v ≠ w ->
        rows (differing_step_results self) !! k = Some row) /\
     (NaN ∉ row -> row ≠ [] ->
      (rows (differing_step_results self) !! k = None <-> all_identical row))).
Proof.
  split; intros k row Hrow.
  - by apply (remove_shared_exactly (property_results self) k row).
  - by apply (remove_shared_exactly (step_results self) k row).
Qed.


(** C9: every row the differential filter retains is retained by the
    supported-only filter, with the same values, in the property table and
    in the step table. *)
Theorem differing_results_subseteq_supported (self : GenomePropertiesResults) :
  rows (differing_property_results self) ⊆ rows (supported_property_results self) /\
  rows (differing_step_results self) ⊆ rows (supported_step_results self).
Proof. split; apply remove_shared_subseteq_remove_NO. Qed.

(** ** Outer joins *)

Section joins.
Context {K : Type} `{Countable K}.

Lemma join_outer_lookup (a b : DataFrame K) (k : K) :
  rows (join_outer a b) !! k =
  match rows a !! k, rows b !! k with
  | None, None => None
  | _, _ => Some (row_or_nan a k ++ row_or_nan b k)
  end.
Proof.
  unfold join_outer, row_or_nan; simpl. rewrite lookup_merge.
  by destruct (rows a !! k), (rows b !! k).
Qed.

Lemma join_outer_row_or_nan (a b : DataFrame K) (k : K) :
  row_or_nan (join_outer a b) k = row_or_nan a k ++ row_or_nan b k.
Proof.
  unfold row_or_nan at 1. rewrite join_outer_lookup.
  destruct (rows a !! k) eqn:Ha, (rows b !! k) eqn:Hb; simpl; try done.
  unfold row_or_nan. rewrite Ha, Hb; simpl.
  by rewrite length_app, replicate_add.
Qed.

Lemma foldl_join_outer_columns (f : DataFrame K) (fs : list (DataFrame K)) :
  columns (foldl join_outer f fs) = columns f ++ (fs ≫= columns).
Proof.
  revert f. induction fs as [|g fs IH]; intros f; simpl.
  - by rewrite app_nil_r.
  - rewrite IH. simpl. by rewrite <- app_assoc.
Qed.

Lemma foldl_join_outer_row_or_nan (f : DataFrame K) (fs : list (DataFrame K)) (k : K) :
  row_or_nan (foldl join_outer f fs) k
    = row_or_nan f k ++ (fs ≫= fun t => row_or_nan t k).
Proof.
  revert f. induction fs as [|g fs IH]; intros f; simpl.
  - by rewrite app_nil_r.
  - rewrite IH, join_outer_row_or_nan. by rewrite <- app_assoc.
Qed.

(** A label is a row of the join exactly when it is a row of a frame. *)
Lemma foldl_join_outer_is_Some (f : DataFrame K) (fs : list (DataFrame K)) (k : K) :
  is_Some (rows (foldl join_outer f fs) !! k) <->
  Exists (fun t => is_Some (rows t !! k)) (f :: fs).
Proof.
  revert f. induction fs as [|g fs IH]; intros f; simpl.
  - rewrite Exists_cons, Exists_nil. naive_solver.
  - rewrite IH, !Exists_cons, join_outer_lookup.
    destruct (rows f !! k), (rows g !! k); split;
      try naive_solver; intros [[? ?]|?]; naive_solver.
Qed.

(** The row of a label in the join: the rows of the frames side by side,
    with NaN in the columns of the frames that lack the label. *)
Lemma foldl_join_outer_lookup (f : DataFrame K) (fs : list (DataFrame K))
    (k : K) (row : list cell) :
  rows (foldl join_outer f fs) !! k = Some row ->
  row = (f :: fs) ≫= fun t => row_or_nan t k.
Proof.
  intros Hrow. pose proof (foldl_join_outer_row_or_nan f fs k) as Hj.
  unfold row_or_nan at 1 in Hj. rewrite Hrow in Hj. simpl in Hj. by subst.
Qed.

End joins.

(** ** The per-sample tables *)

Section sample_tables.

Lemma from_dict_index_row_or_nan (d : gmap string string) (label k : string) :
  row_or_nan (from_dict_index d label) k = [d !! k].
Proof.
  unfold row_or_nan, from_dict_index; simpl. rewrite lookup_fmap.
  by destruct (d !! k).
Qed.

Lemma elem_of_create_step_table_rows (sa : gmap string (gmap Z string))
    (i : string) (n : Z) (r : string) :
  (i, n, r) ∈ create_step_table_rows sa <->
  exists step, sa !! i = Some step /\ step !! n = Some r.
Proof.
  unfold create_step_table_rows. rewrite list_elem_of_bind. split.
  - intros [[i' step] [Hin Hstep]]. apply elem_of_map_to_list in Hstep.
    apply list_elem_of_bind in Hin as [[n' r'] [Hin Hnr]].
    apply list_elem_of_singleton in Hin. injection Hin as -> -> ->.
    apply elem_of_map_to_list in Hnr. eauto.
  - intros (step & Hstep & Hr). exists (i, step).
    split; [|by apply elem_of_map_to_list].
    apply list_elem_of_bind. exists (n, r).
    split; [by apply list_elem_of_singleton|by apply elem_of_map_to_list].
Qed.

Lemma step_frame_lookup (sa : gmap string (gmap Z string)) (label i : string) (n : Z) :
  rows (step_frame (create_step_table_rows sa) label) !! (i, n)
    = (fun r => [Some r]) <$> (sa !! i ≫= (.!! n)).
Proof.
  unfold step_frame; simpl.
  match goal with |- ?m !! _ = _ => destruct (m !! (i, n)) as [row|] eqn:Hrow end.
  - apply elem_of_list_to_map_2, list_elem_of_fmap in Hrow
      as [[[i' n'] r] [Heq Hin]].
    injection Heq as -> -> ->.
    apply elem_of_create_step_table_rows in Hin as (step & -> & Hr). simpl.
    by rewrite Hr.
  - apply not_elem_of_list_to_map in Hrow.
    destruct (sa !! i) as [step|] eqn:Hstep; simpl; [|done].
    destruct (step !! n) as [r|] eqn:Hr; simpl; [|done].
    exfalso. apply Hrow. apply list_elem_of_fmap. exists ((i, n), [Some r]).
    split; [done|]. apply list_elem_of_fmap. exists (i, n, r). split; [done|].
    apply elem_of_create_step_table_rows. eauto.
Qed.

Lemma step_frame_row_or_nan (sa : gmap string (gmap Z string)) (label i : string) (n : Z) :
  row_or_nan (step_frame (create_step_table_rows sa) label) (i, n)
    = [sa !! i ≫= (.!! n)].
Proof.
  unfold row_or_nan. rewrite step_frame_lookup.
  by destruct (sa !! i ≫= (.!! n)).
Qed.

End sample_tables.

(** ** Single-entity lookups *)

Section lookups.

Lemma loc_level0_loc (f : DataFrame (string * Z)) (i : string) (n : Z) :
  (sub ← loc_level0 f i; loc sub n) =
  match rows f !! (i, n) with
  | Some row => Return row
  | None => Raise KeyError
  end.
Proof.
  unfold loc_level0.
  pose proof (lookup_map_curry (M1 := gmap string) (M2 := gmap Z) (rows f) i n)
    as Hcurry.
  destruct (map_curry (rows f) !! i) as [sub|] eqn:Hsub; simpl in *.
  - unfold loc; simpl. by rewrite Hcurry.
  - by rewrite <- Hcurry.
Qed.

Lemma get_property_result_lookup (self : GenomePropertiesResults) (i : string) :
  get_property_result self i =
  Return (default (replicate (length (columns (property_results self))) (Some NO))
                  (rows (property_results self) !! i)).
Proof.
  unfold get_property_result, loc.
  by destruct (rows (property_results self) !! i).
Qed.

Lemma get_step_result_lookup (self : GenomePropertiesResults) (i : string) (n : Z) :
  get_step_result self i n =
  Return (default (replicate (length (columns (step_results self))) (Some NO))
                  (rows (step_results self) !! (i, n))).
Proof.
  unfold get_step_result. rewrite loc_level0_loc.
  by destruct (rows (step_results self) !! (i, n)).
Qed.

End lookups.

(** ** The constructor *)

Section constructor.
Variable assign_genome_property :
  AssignmentCache -> GenomeProperty -> AssignmentCache * string.

#[local] Abbreviation tables_of := (create_assignment_tables assign_genome_property).
#[local] Abbreviation init := (GenomePropertiesResults_init assign_genome_property).

Lemma collect_tables_map (t : GenomePropertiesTree) (caches : list AssignmentCache) :
  collect_tables assign_genome_property t caches =
  ((fun c => (tables_of t c).1) <$> caches,
   (fun c => (tables_of t c).2) <$> caches,
   sample_name <$> caches).
Proof.
  unfold collect_tables.
  enough (forall ps ss ns,
    foldl (fun '(property_tables, step_tables, sample_names) assignment =>
             let sample_names := sample_names ++ [sample_name assignment] in
             let '(property_table, step_table) := tables_of t assignment in
             (property_tables ++ [property_table], step_tables ++ [step_table],
              sample_names)) (ps, ss, ns) caches
    = (ps ++ ((fun c => (tables_of t c).1) <$> caches),
       ss ++ ((fun c => (tables_of t c).2) <$> caches),
       ns ++ (sample_name <$> caches))) as Hgen by apply (Hgen [] [] []).
  induction caches as [|c caches IH]; intros ps ss ns; simpl.
  - by rewrite !app_nil_r.
  - destruct (tables_of t c) as [pt st] eqn:Htab. rewrite IH. simpl.
    by rewrite <- !app_assoc.
Qed.

Lemma property_tables_columns (t : GenomePropertiesTree) (caches : list AssignmentCache) :
  length (((fun c => (tables_of t c).1) <$> caches) ≫= columns) = length caches.
Proof.
  induction caches as [|c caches IH]; [done|].
  rewrite fmap_cons, bind_cons, length_app, IH. done.
Qed.

Lemma step_tables_columns (t : GenomePropertiesTree) (caches : list AssignmentCache) :
  length (((fun c => (tables_of t c).2) <$> caches) ≫= columns) = length caches.
Proof.
  induction caches as [|c caches IH]; [done|].
  rewrite fmap_cons, bind_cons, length_app, IH. done.
Qed.

(** The constructor succeeds on one or more caches, and yields the joins of
    the per-sample tables under the sample names. *)
Lemma init_nonempty (c : AssignmentCache) (caches : list AssignmentCache)
    (t : GenomePropertiesTree) :
  init (c :: caches) t = Return
    {| tree := t;
       sample_names := sample_name <$> (c :: caches);
       property_results :=
         {| columns := sample_name <$> (c :: caches);
            rows := rows (foldl join_outer (tables_of t c).1
                            ((fun c => (tables_of t c).1) <$> caches)) |};
       step_results :=
         {| columns := sample_name <$> (c :: caches);
            rows := rows (foldl join_outer (tables_of t c).2
                            ((fun c => (tables_of t c).2) <$> caches)) |} |}.
Proof.
  unfold GenomePropertiesResults_init. rewrite collect_tables_map.
  cbn [fmap list_fmap concat_axis1 mbind outcome_bind].
  unfold set_columns. rewrite !foldl_join_outer_columns.
  rewrite !length_app, property_tables_columns, step_tables_columns.
  cbn [tables_of create_assignment_tables fst snd columns from_dict_index
       step_frame length].
  rewrite !length_fmap.
  destruct (decide (S (length caches) = (1 + length caches)%nat)) as [_|Hne];
    [|by exfalso; apply Hne].
  done.
Qed.

(** The constructor raises [ValueError] when given no cache at all. *)
Lemma init_empty (t : GenomePropertiesTree) : init [] t = Raise ValueError.
Proof. done. Qed.

Lemma init_inv (caches : list AssignmentCache) (t : GenomePropertiesTree)
    (self : GenomePropertiesResults) :
  init caches t = Return self ->
  exists c caches', caches = c :: caches' /\
    sample_names self = sample_name <$> caches /\
    columns (property_results self) = sample_name <$> caches /\
    columns (step_results self) = sample_name <$> caches /\
    rows (property_results self)
      = rows (foldl join_outer (tables_of t c).1
                ((fun c => (tables_of t c).1) <$> caches')) /\
    rows (step_results self)
      = rows (foldl join_outer (tables_of t c).2
                ((fun c => (tables_of t c).2) <$> caches')).
Proof.
  destruct caches as [|c caches']; [by rewrite init_empty|].
  rewrite init_nonempty. intros [= <-]. exists c, caches'. by split_and!.
Qed.

(** C7: on one or more caches the constructor yields a results object whose
    property table and step table both have the sample names as column
    labels, in the order the caches were given. *)
Theorem constructor_column_order (caches : list AssignmentCache)
    (t : GenomePropertiesTree) :
  caches ≠ [] ->
  exists self, init caches t = Return self /\
    sample_names self = sample_name <$> caches /\
    columns (property_results self) = sample_name <$> caches /\
    columns (step_results self) = sample_name <$> caches /\
    columns (property_results self) = columns (step_results self).
Proof.
  intros Hne. destruct caches as [|c caches]; [done|].
  rewrite init_nonempty. eexists. split; [done|]. by split_and!.
Qed.

Lemma property_table_row_or_nan (t : GenomePropertiesTree) (c : AssignmentCache)
    (k : string) :
  row_or_nan (tables_of t c).1 k = [entry_or_nan (tables_of t c).1 k].
Proof.
  unfold entry_or_nan. simpl. rewrite from_dict_index_row_or_nan.
  rewrite lookup_fmap. by destruct (_ !! k).
Qed.

Lemma step_table_row_or_nan (t : GenomePropertiesTree) (c : AssignmentCache)
    (k : string * Z) :
  row_or_nan (tables_of t c).2 k = [entry_or_nan (tables_of t c).2 k].
Proof.
  destruct k as [i n]. unfold entry_or_nan.
  cbn [create_assignment_tables snd].
  rewrite step_frame_row_or_nan, step_frame_lookup.
  by destruct (_ ≫= _).
Qed.

(** The rows of the combined tables: the entries of the per-sample tables
    side by side. *)
Lemma combined_tables_rows (caches : list AssignmentCache)
    (t : GenomePropertiesTree) (self : GenomePropertiesResults) :
  init caches t = Return self ->
  (forall k,
     is_Some (rows (property_results self) !! k) <->
     exists c, c ∈ caches /\ is_Some (rows (tables_of t c).1 !! k)) /\
  (forall k row, rows (property_results self) !! k = Some row ->
     row = (fun c => entry_or_nan (tables_of t c).1 k) <$> caches) /\
  (forall k,
     is_Some (rows (step_results self) !! k) <->
     exists c, c ∈ caches /\ is_Some (rows (tables_of t c).2 !! k)) /\
  (forall k row, rows (step_results self) !! k = Some row ->
     row = (fun c => entry_or_nan (tables_of t c).2 k) <$> caches).
Proof.
  intros Hinit.
  destruct (init_inv _ _ _ Hinit) as (c & caches' & -> & _ & _ & _ & Hp & Hs).
  rewrite Hp, Hs. clear Hinit Hp Hs.
  assert ((tables_of t c).1 :: ((fun c => (tables_of t c).1) <$> caches')
          = (fun c => (tables_of t c).1) <$> (c :: caches')) as Hpl by done.
  assert ((tables_of t c).2 :: ((fun c => (tables_of t c).2) <$> caches')
          = (fun c => (tables_of t c).2) <$> (c :: caches')) as Hsl by done.
  revert Hpl Hsl. generalize (c :: caches'). intros l Hpl Hsl. split_and!.
  - intros k. rewrite foldl_join_outer_is_Some, Hpl, Exists_fmap.
    rewrite Exists_exists. naive_solver.
  - intros k row Hrow. apply foldl_join_outer_lookup in Hrow as ->.
    rewrite Hpl. clear Hpl Hsl.
    induction l as [|x l IH]; [done|].
    rewrite !fmap_cons, bind_cons, IH. by rewrite property_table_row_or_nan.
  - intros k. rewrite foldl_join_outer_is_Some, Hsl, Exists_fmap.
    rewrite Exists_exists. naive_solver.
  - intros k row Hrow. apply foldl_join_outer_lookup in Hrow as ->.
    rewrite Hsl. clear Hpl Hsl.
    induction l as [|x l IH]; [done|].
    rewrite !fmap_cons, bind_cons, IH. by rewrite step_table_row_or_nan.
Qed.

(** C2 (amended): a label is a row of a combined table exactly when it is a
    row of the per-sample table of some sample, and the entry of that row
    for a sample is the entry of the sample's own table, and NaN, not NO,
    where that table has no such row. *)
Theorem combined_tables_entries (caches : list AssignmentCache)
    (t : GenomePropertiesTree) (self : GenomePropertiesResults) :
  init caches t = Return self ->
  (forall k,
     is_Some (rows (property_results self) !! k) <->
     exists c, c ∈ caches /\ is_Some (rows (tables_of t c).1 !! k)) /\
  (forall k j c,
     is_Some (rows (property_results self) !! k) -> caches !! j = Some c ->
     cell_at (property_results self) k j
       = Some (entry_or_nan (tables_of t c).1 k) /\
     (rows (tables_of t c).1 !! k = None ->
      cell_at (property_results self) k j = Some NaN)) /\
  (forall k,
     is_Some (rows (step_results self) !! k) <->
     exists c, c ∈ caches /\ is_Some (rows (tables_of t c).2 !! k)) /\
  (forall k j c,
     is_Some (rows (step_results self) !! k) -> caches !! j = Some c ->
     cell_at (step_results self) k j
       = Some (entry_or_nan (tables_of t c).2 k) /\
     (rows (tables_of t c).2 !! k = None ->
      cell_at (step_results self) k j = Some NaN)).
Proof.
  intros Hinit.
  destruct (combined_tables_rows caches t self Hinit) as (Hp & Hprow & Hs & Hsrow).
  split_and!; [done| |done|].
  - intros k j c [row Hrow] Hj.
    assert (cell_at (property_results self) k j
            = Some (entry_or_nan (tables_of t c).1 k)) as Hcell.
    { unfold cell_at. rewrite Hrow. simpl.
      rewrite (Hprow k row Hrow), list_lookup_fmap, Hj. done. }
    split; [done|]. intros Hnone. rewrite Hcell. unfold entry_or_nan.
    by rewrite Hnone.
  - intros k j c [row Hrow] Hj.
    assert (cell_at (step_results self) k j
            = Some (entry_or_nan (tables_of t c).2 k)) as Hcell.
    { unfold cell_at. rewrite Hrow. simpl.
      rewrite (Hsrow k row Hrow), list_lookup_fmap, Hj. done. }
    split; [done|]. intros Hnone. rewrite Hcell. unfold entry_or_nan.
    by rewrite Hnone.
Qed.

(** C3: on a constructed results object both lookups return and never
    raise: for a label that is not a row of the table they return NO once
    per sample, and for a label that is a row they return that row. *)
Theorem lookups_default_to_NO (caches : list AssignmentCache)
    (t : GenomePropertiesTree) (self : GenomePropertiesResults) :
  init caches t = Return self ->
  (forall i, rows (property_results self) !! i = None ->
     get_property_result self i = Return (replicate (length caches) (Some NO))) /\
  (forall i row, rows (property_results self) !! i = Some row ->
     get_property_result self i = Return row) /\
  (forall i n, rows (step_results self) !! (i, n) = None ->
     get_step_result self i n = Return (replicate (length caches) (Some NO))) /\
  (forall i n row, rows (step_results self) !! (i, n) = Some row ->
     get_step_result self i n = Return row).
Proof.
  intros Hinit.
  destruct (init_inv _ _ _ Hinit) as (c & caches' & _ & _ & Hp & Hs & _).
  split_and!.
  - intros i Hi. rewrite get_property_result_lookup, Hi, Hp. simpl.
    by rewrite length_fmap.
  - intros i row Hi. by rewrite get_property_result_lookup, Hi.
  - intros i n Hi. rewrite get_step_result_lookup, Hi, Hs. simpl.
    by rewrite length_fmap.
  - intros i n row Hi. by rewrite get_step_result_lookup, Hi.
Qed.

End constructor.

(** ** The tree-shaped export *)

Section export.

Lemma generate_children (self : GenomePropertiesResults)
    (children : list GenomeProperty) (acc : list json_node) :
  Forall (fun g => generate_json_tree self g = Return (mirror_tree self g)) children ->
  foldl (fun acc child =>
           children ← acc;
           node ← generate_json_tree self child;
           mret (children ++ [node]))
        (mret acc) children
  = Return (acc ++ map (mirror_tree self) children).
Proof.
  intros Hall. revert acc. induction Hall as [|g l Hg _ IH]; intros acc.
  - simpl. by rewrite app_nil_r.
  - cbn [foldl map]. cbn [mbind outcome_bind mret outcome_ret]. rewrite Hg.
    cbn [mbind outcome_bind mret outcome_ret].
    specialize (IH (acc ++ [mirror_tree self g])).
    cbn [mret outcome_ret] in IH. rewrite IH. by rewrite <- app_assoc.
Qed.

(** C8: [generate_json_tree] returns, for every property, the structure
    that mirrors the hierarchy below it. *)
Theorem generate_json_tree_mirrors (self : GenomePropertiesResults)
    (p : GenomeProperty) :
  generate_json_tree self p = Return (mirror_tree self p).
Proof.
  induction p as [i name steps IH] using GenomeProperty_nested_ind.
  cbn [generate_json_tree mirror_tree].
  rewrite get_property_result_lookup. fold (property_vector self i).
  cbn [mbind outcome_bind].
  match goal with
  | |- context [foldl ?f (mret []) steps] =>
      enough (forall acc, foldl f (mret acc) steps = Return (acc ++
        flat_map (fun step =>
                    match step with
                    | mkStep n step_name [] =>
                        [StepNode n step_name false (step_vector self i n)]
                    | mkStep _ _ children => map (mirror_tree self) children
                    end) steps)) as Hsteps
  end.
  { rewrite (Hsteps []). done. }
  induction IH as [|[n step_name children] ss Hs _ IHss]; intros acc.
  - simpl. by rewrite app_nil_r.
  - cbn [foldl flat_map]. cbn [mbind outcome_bind mret outcome_ret].
    destruct children as [|g children].
    + rewrite get_step_result_lookup. fold (step_vector self i n).
      cbn [mbind outcome_bind mret outcome_ret].
      etrans; [apply IHss|]. by rewrite <- app_assoc.
    + pose proof (generate_children self (g :: children) acc Hs) as Hch.
      cbn [mret outcome_ret] in Hch. rewrite Hch.
      etrans; [apply IHss|]. by rewrite <- app_assoc.
Qed.

Lemma mirror_tree_disabled (self : GenomePropertiesResults) (p : GenomeProperty)
    (node : json_node) :
  node ∈ subnodes (mirror_tree self p) -> node_enabled node = false.
Proof.
  revert node. induction p as [i name steps IH] using GenomeProperty_nested_ind.
  intros node. cbn [mirror_tree subnodes]. rewrite elem_of_cons.
  intros [->|Hin]; [done|].
  apply list_elem_of_In, in_flat_map in Hin as (child & Hchild & Hin).
  apply in_flat_map in Hchild as (step & Hstep & Hchild).
  apply list_elem_of_In in Hstep.
  pose proof (proj1 (Forall_forall _ _) IH step Hstep) as IHstep.
  destruct step as [n step_name [|g children]].
  - destruct Hchild as [<-|[]]. simpl in Hin. by destruct Hin as [<-|[]].
  - apply in_map_iff in Hchild as (g' & <- & Hg').
    apply list_elem_of_In in Hg'.
    apply (proj1 (Forall_forall _ _) IHstep g' Hg'). by apply list_elem_of_In.
Qed.

(** C10: in the structure that [generate_json_tree] returns, and so in the
    data that [to_json] serialises, the enabled field of every node,
    property node or leaf step node, is False. *)
Theorem generate_json_tree_disabled (self : GenomePropertiesResults) :
  (forall p, exists tree_node,
     generate_json_tree self p = Return tree_node /\
     forall node, node ∈ subnodes tree_node -> node_enabled node = false) /\
  (exists tree_node,
     to_json_data self = Return (sample_names self, tree_node) /\
     forall node, node ∈ subnodes tree_node -> node_enabled node = false).
Proof.
  split.
  - intros p. exists (mirror_tree self p).
    split; [apply generate_json_tree_mirrors|apply mirror_tree_disabled].
  - exists (mirror_tree self (root (tree self))). split.
    + unfold to_json_data. by rewrite generate_json_tree_mirrors.
    + apply mirror_tree_disabled.
Qed.

End export.

(** ** The object store *)

Section store.

(* The functions on cache values, by these names while the functions of the
   same names on references are in scope. *)
#[local] Abbreviation flush_value := flush_property_from_cache.
#[local] Abbreviation identifiers_of_value := genome_property_identifiers.
#[local] Abbreviation synchronized_value := create_synchronized_assignment_cache.

Import Store.

Lemma read_cache_Some (h : heap) (l : loc) n p s :
  read_cache h l = Some (n, p, s) <-> h !! l = Some (CacheObject n p s).
Proof.
  unfold read_cache. destruct (h !! l) as [[]|]; split; intros; simplify_eq; done.
Qed.

Lemma read_property_dict_Some (h : heap) (l : loc) d :
  read_property_dict h l = Some d <-> h !! l = Some (PropertyDict d).
Proof.
  unfold read_property_dict.
  destruct (h !! l) as [[]|]; split; intros; simplify_eq; done.
Qed.

Lemma read_steps_dict_Some (h : heap) (l : loc) d :
  read_steps_dict h l = Some d <-> h !! l = Some (StepsDict d).
Proof.
  unfold read_steps_dict.
  destruct (h !! l) as [[]|]; split; intros; simplify_eq; done.
Qed.

Lemma read_step_dict_Some (h : heap) (l : loc) d :
  read_step_dict h l = Some d <-> h !! l = Some (StepDict d).
Proof.
  unfold read_step_dict.
  destruct (h !! l) as [[]|]; split; intros; simplify_eq; done.
Qed.

Lemma read_step_dict_agree (h h' : heap) (l : loc) :
  h' !! l = h !! l -> read_step_dict h' l = read_step_dict h l.
Proof. unfold read_step_dict. by intros ->. Qed.

Lemma preserved_refl (h : heap) : preserved h h.
Proof. by intros l _. Qed.

Lemma preserved_dom (h h' : heap) : preserved h h' -> dom h ⊆ dom h'.
Proof.
  intros Hp l Hl. apply elem_of_dom. rewrite (Hp l Hl). by apply elem_of_dom.
Qed.

Lemma preserved_trans (h1 h2 h3 : heap) :
  preserved h1 h2 -> preserved h2 h3 -> preserved h1 h3.
Proof.
  intros H12 H23 l Hl. rewrite <- (H12 l Hl). apply H23.
  by apply (preserved_dom h1 h2).
Qed.

Lemma alloc_spec (h h' : heap) (o : object) (l : loc) :
  alloc h o = (h', l) ->
  (l ∉ dom h) /\ h' = <[l := o]> h /\ preserved h h'.
Proof.
  unfold alloc. intros [= <- <-]. split; [apply is_fresh|]. split; [done|].
  intros l Hl. apply lookup_insert_ne. intros <-. by apply (is_fresh (dom h)).
Qed.

(** The copy of the entries of the dictionary of step assignments: every
    entry refers to a new object that holds what the entry of the input
    refers to. *)
Lemma deepcopy_steps_spec (h1 : heap) (ds : gmap string loc) :
  map_Forall (fun _ il => is_Some (read_step_dict h1 il)) ds ->
  exists h2 memo ds',
    map_fold deepcopy_step (Some (h1, ∅, ∅)) ds = Some (h2, memo, ds') /\
    preserved h1 h2 /\
    (forall i, ds' !! i ≫= read_step_dict h2 = ds !! i ≫= read_step_dict h1) /\
    (forall i il', ds' !! i = Some il' ->
       (il' ∉ dom h1) /\ is_Some (read_step_dict h2 il')).
Proof.
  enough (map_Forall (fun _ il => is_Some (read_step_dict h1 il)) ds ->
    exists h2 memo ds',
      map_fold deepcopy_step (Some (h1, ∅, ∅)) ds = Some (h2, memo, ds') /\
      preserved h1 h2 /\
      (forall i, ds' !! i ≫= read_step_dict h2 = ds !! i ≫= read_step_dict h1) /\
      (forall i il', ds' !! i = Some il' ->
         (il' ∉ dom h1) /\ is_Some (read_step_dict h2 il')) /\
      (forall il il', memo !! il = Some il' ->
         (il' ∉ dom h1) /\ il' ∈ dom h2 /\
         read_step_dict h2 il' = read_step_dict h1 il)) as Hgen.
  { intros Hwf. destruct (Hgen Hwf) as (h2 & memo & ds' & ? & ? & ? & ? & _).
    exists h2, memo, ds'. by split_and!. }
  apply (map_fold_weak_ind (fun r m =>
    map_Forall (fun _ il => is_Some (read_step_dict h1 il)) m ->
    exists h2 memo ds',
      r = Some (h2, memo, ds') /\
      preserved h1 h2 /\
      (forall i, ds' !! i ≫= read_step_dict h2 = m !! i ≫= read_step_dict h1) /\
      (forall i il', ds' !! i = Some il' ->
         (il' ∉ dom h1) /\ is_Some (read_step_dict h2 il')) /\
      (forall il il', memo !! il = Some il' ->
         (il' ∉ dom h1) /\ il' ∈ dom h2 /\
         read_step_dict h2 il' = read_step_dict h1 il))); clear ds.
  - intros _. exists h1, ∅, ∅. split_and!; [done|apply preserved_refl|..].
    + intros i. by rewrite !lookup_empty.
    + intros i il'. by rewrite lookup_empty.
    + intros il il'. by rewrite lookup_empty.
  - intros i x m r Hi IH Hwf.
    apply map_Forall_insert in Hwf as [Hx Hwf]; [|done].
    destruct (IH Hwf) as (h2 & memo & ds' & -> & Hpres & Hread & Hnew & Hmemo).
    clear IH. simpl. destruct (memo !! x) as [il'|] eqn:Hmx.
    + destruct (Hmemo _ _ Hmx) as (Hfresh & Hdom & Hsame).
      exists h2, memo, (<[i := il']> ds'). split_and!; [done..| | |done].
      * intros j. destruct (decide (i = j)) as [<-|Hne].
        -- by rewrite !lookup_insert_eq.
        -- by rewrite !lookup_insert_ne.
      * intros j jl. destruct (decide (i = j)) as [<-|Hne].
        -- rewrite lookup_insert_eq. intros [= <-]. split; [done|].
           by rewrite Hsame.
        -- rewrite lookup_insert_ne by done. apply Hnew.
    + assert (x ∈ dom h1) as Hxdom.
      { destruct Hx as [d Hd]. apply read_step_dict_Some in Hd.
        by apply elem_of_dom. }
      rewrite (read_step_dict_agree _ _ x (Hpres x Hxdom)).
      destruct Hx as [d Hd]. rewrite Hd. simpl.
      pose proof (is_fresh (dom h2)) as Hfresh. set (il' := fresh (dom h2)) in *.
      assert (forall l, l ∈ dom h2 -> <[il' := StepDict d]> h2 !! l = h2 !! l)
        as Hold.
      { intros l Hl. apply lookup_insert_ne. by intros <-. }
      assert (read_step_dict (<[il' := StepDict d]> h2) il' = Some d) as Hnewd.
      { apply read_step_dict_Some, lookup_insert_eq. }
      exists (<[il' := StepDict d]> h2), (<[x := il']> memo), (<[i := il']> ds').
      split_and!; [done|..].
      * intros l Hl. rewrite Hold; [by apply Hpres|].
        by apply (preserved_dom h1 h2).
      * intros j. destruct (decide (i = j)) as [<-|Hne].
        -- rewrite !lookup_insert_eq. simpl. by rewrite Hnewd.
        -- rewrite !lookup_insert_ne by done. rewrite <- Hread.
           destruct (ds' !! j) as [jl|] eqn:Hj; simpl; [|done].
           apply read_step_dict_agree, Hold.
           destruct (Hnew _ _ Hj) as [_ [dj Hdj]].
           apply read_step_dict_Some in Hdj. by apply elem_of_dom.
      * intros j jl. destruct (decide (i = j)) as [<-|Hne].
        -- rewrite lookup_insert_eq. intros [= <-]. split; [|by rewrite Hnewd].
           intros Hin. by apply Hfresh, (preserved_dom h1 h2).
        -- rewrite lookup_insert_ne by done. intros Hj.
           destruct (Hnew _ _ Hj) as [Hjf [dj Hdj]]. split; [done|].
           exists dj. rewrite <- Hdj. apply read_step_dict_agree, Hold.
           apply read_step_dict_Some in Hdj. by apply elem_of_dom.
      * intros jl jl'. destruct (decide (x = jl)) as [<-|Hne].
        -- rewrite lookup_insert_eq. intros [= <-]. split_and!.
           ++ intros Hin. by apply Hfresh, (preserved_dom h1 h2).
           ++ apply elem_of_dom. by rewrite lookup_insert_eq.
           ++ by rewrite Hnewd.
        -- rewrite lookup_insert_ne by done. intros Hj.
           destruct (Hmemo _ _ Hj) as (? & Hjdom & Hjsame). split_and!; [done|..].
           ++ apply elem_of_dom. rewrite Hold by done. by apply elem_of_dom.
           ++ rewrite <- Hjsame. by apply read_step_dict_agree, Hold.
Qed.
Lemma read_cache_agree (h h' : heap) (l : loc) :
  h' !! l = h !! l -> read_cache h' l = read_cache h l.
Proof. unfold read_cache. by intros ->. Qed.

Lemma read_property_dict_agree (h h' : heap) (l : loc) :
  h' !! l = h !! l -> read_property_dict h' l = read_property_dict h l.
Proof. unfold read_property_dict. by intros ->. Qed.

Lemma read_steps_dict_agree (h h' : heap) (l : loc) :
  h' !! l = h !! l -> read_steps_dict h' l = read_steps_dict h l.
Proof. unfold read_steps_dict. by intros ->. Qed.

Lemma read_step_dict_dom (h : heap) (l : loc) :
  is_Some (read_step_dict h l) -> l ∈ dom h.
Proof. intros [d Hd%read_step_dict_Some]. by apply elem_of_dom. Qed.

Lemma elem_of_footprint (h : heap) (l : loc) n p s ds (x : loc) :
  read_cache h l = Some (n, p, s) -> read_steps_dict h s = Some ds ->
  x ∈ footprint h l <->
  x = l \/ x = p \/ x = s \/ exists i, ds !! i = Some x.
Proof.
  intros Hl Hs. unfold footprint. rewrite Hl, Hs. simpl.
  rewrite elem_of_union, !elem_of_union, !elem_of_singleton, elem_of_map_to_set.
  naive_solver.
Qed.

(** A cache is the same cache in every store that preserves its objects. *)
Lemma view_preserved (h h' : heap) (l : loc) :
  is_cache h l -> preserved h h' ->
  is_cache h' l /\ view h' l = view h l /\ footprint h' l = footprint h l.
Proof.
  intros (n & p & s & dp & ds & Hl & Hp & Hs & Hwf) Hpres.
  assert (h' !! l = h !! l) as Hl'.
  { apply Hpres, elem_of_dom. apply read_cache_Some in Hl. by rewrite Hl. }
  assert (h' !! p = h !! p) as Hp'.
  { apply Hpres, elem_of_dom. apply read_property_dict_Some in Hp. by rewrite Hp. }
  assert (h' !! s = h !! s) as Hs'.
  { apply Hpres, elem_of_dom. apply read_steps_dict_Some in Hs. by rewrite Hs. }
  assert (forall i il, ds !! i = Some il ->
            read_step_dict h' il = read_step_dict h il) as Hin.
  { intros i il Hil. apply read_step_dict_agree, Hpres, read_step_dict_dom.
    by apply (Hwf i il). }
  split_and!.
  - exists n, p, s, dp, ds.
    rewrite (read_cache_agree _ _ _ Hl'), (read_property_dict_agree _ _ _ Hp'),
      (read_steps_dict_agree _ _ _ Hs').
    split_and!; [done..|]. intros i il Hil. rewrite (Hin i il Hil).
    by apply (Hwf i il).
  - unfold view.
    rewrite (read_cache_agree _ _ _ Hl'), Hl. simpl.
    rewrite (read_property_dict_agree _ _ _ Hp'), Hp. simpl.
    rewrite (read_steps_dict_agree _ _ _ Hs'), Hs. simpl.
    do 2 f_equal. by apply omap_ext.
  - unfold footprint.
    rewrite (read_cache_agree _ _ _ Hl'), Hl.
    by rewrite (read_steps_dict_agree _ _ _ Hs').
Qed.

(** [deepcopy] returns a cache made of new objects, which stands for the
    same value as the cache it copied, and changes no object. *)
Lemma deepcopy_spec (h : heap) (l : loc) :
  is_cache h l ->
  exists h' l',
    deepcopy h l = Some (h', l') /\
    preserved h h' /\
    is_cache h' l' /\
    view h' l' = view h l /\
    footprint h' l' ## dom h.
Proof.
  intros (n & p & s & dp & ds & Hl & Hp & Hs & Hwf).
  unfold deepcopy. rewrite Hl. simpl. rewrite Hp, Hs. simpl.
  set (p' := fresh (dom h)). set (h1 := <[p' := PropertyDict dp]> h).
  destruct (alloc_spec h h1 (PropertyDict dp) p' eq_refl) as (Hp'new & Hh1 & Hpres1).
  assert (map_Forall (fun _ il => is_Some (read_step_dict h1 il)) ds) as Hwf1.
  { intros i il Hil.
    rewrite (read_step_dict_agree h h1 il); [by apply (Hwf i il)|].
    apply Hpres1, read_step_dict_dom. by apply (Hwf i il). }
  destruct (deepcopy_steps_spec h1 ds Hwf1)
    as (h2 & memo & ds' & -> & Hpres2 & Hread & Hnew).
  simpl.
  set (s' := fresh (dom h2)). set (h3 := <[s' := StepsDict ds']> h2).
  destruct (alloc_spec h2 h3 (StepsDict ds') s' eq_refl) as (Hs'new & Hh3 & Hpres3).
  set (l' := fresh (dom h3)). set (h4 := <[l' := CacheObject n p' s']> h3).
  destruct (alloc_spec h3 h4 (CacheObject n p' s') l' eq_refl)
    as (Hl'new & Hh4 & Hpres4).
  exists h4, l'. split; [done|].
  pose proof (preserved_trans _ _ _ Hpres3 Hpres4) as Hpres24.
  pose proof (preserved_trans _ _ _ Hpres2 Hpres24) as Hpres14.
  pose proof (preserved_trans _ _ _ Hpres1 Hpres14) as Hpres04.
  pose proof (preserved_trans _ _ _ Hpres1 Hpres2) as Hpres02.
  pose proof (preserved_trans _ _ _ Hpres02 Hpres3) as Hpres03.
  assert (read_cache h4 l' = Some (n, p', s')) as Hl4.
  { apply read_cache_Some. apply lookup_insert_eq. }
  assert (read_property_dict h4 p' = Some dp) as Hp4.
  { apply read_property_dict_Some. rewrite (Hpres14 p').
    - apply lookup_insert_eq.
    - apply elem_of_dom. unfold h1. by rewrite lookup_insert_eq. }
  assert (read_steps_dict h4 s' = Some ds') as Hs4.
  { apply read_steps_dict_Some. rewrite (Hpres4 s').
    - apply lookup_insert_eq.
    - apply elem_of_dom. unfold h3. by rewrite lookup_insert_eq. }
  assert (forall i il', ds' !! i = Some il' ->
            read_step_dict h4 il' = read_step_dict h2 il') as Hin4.
  { intros i il' Hil. apply read_step_dict_agree, Hpres24, read_step_dict_dom.
    by apply (Hnew i il'). }
  split_and!; [done| | |].
  - exists n, p', s', dp, ds'. split_and!; [done..|].
    intros i il' Hil. rewrite (Hin4 i il' Hil). by apply (Hnew i il').
  - unfold view. rewrite Hl4, Hl. simpl. rewrite Hp4, Hp, Hs4, Hs. simpl.
    do 2 f_equal. apply map_eq. intros i. rewrite !lookup_omap.
    transitivity (ds' !! i ≫= read_step_dict h2).
    { destruct (ds' !! i) as [il'|] eqn:Hil; simpl; [|done]. by apply (Hin4 i). }
    rewrite Hread. destruct (ds !! i) as [il|] eqn:Hil; simpl; [|done].
    apply read_step_dict_agree, Hpres1, read_step_dict_dom. by apply (Hwf i il).
  - intros x Hx Hdom.
    apply (elem_of_footprint h4 l' n p' s' ds' x Hl4 Hs4) in Hx
      as [->|[->|[->|[i Hi]]]].
    + by apply Hl'new, (preserved_dom h h3).
    + done.
    + by apply Hs'new, (preserved_dom h h2).
    + destruct (Hnew i x Hi) as [Hxnew _]. by apply Hxnew, (preserved_dom h h1).
Qed.

(** Flushing an identifier rewrites the two dictionaries of the cache in
    place and touches no other object. *)
Lemma flush_spec (h : heap) (l : loc) (i : string) (c : AssignmentCache) :
  is_cache h l -> view h l = Some c ->
  exists h',
    flush_property_from_cache h l i = Some h' /\
    is_cache h' l /\
    view h' l = Some (flush_value c i) /\
    footprint h' l ⊆ footprint h l /\
    (forall l0, l0 ∉ footprint h l -> h' !! l0 = h !! l0).
Proof.
  intros (n & p & s & dp & ds & Hl & Hp & Hs & Hwf) Hview.
  unfold view in Hview. rewrite Hl in Hview. simpl in Hview.
  rewrite Hp, Hs in Hview. simpl in Hview. injection Hview as <-.
  pose proof (proj1 (read_cache_Some _ _ _ _ _) Hl) as Hl0.
  pose proof (proj1 (read_property_dict_Some _ _ _) Hp) as Hp0.
  pose proof (proj1 (read_steps_dict_Some _ _ _) Hs) as Hs0.
  assert (l ≠ p) as Hlp by (intros ->; congruence).
  assert (l ≠ s) as Hls by (intros ->; congruence).
  assert (p ≠ s) as Hps by (intros ->; congruence).
  assert (forall j il, ds !! j = Some il -> il ≠ p /\ il ≠ s) as Hinner.
  { intros j il Hil. destruct (Hwf j il Hil) as [d Hd%read_step_dict_Some].
    split; intros ->; congruence. }
  set (h1 := <[p := PropertyDict (delete i dp)]> h).
  set (h2 := <[s := StepsDict (delete i ds)]> h1).
  assert (flush_property_from_cache h l i = Some h2) as Hflush.
  { unfold flush_property_from_cache. rewrite Hl. simpl. rewrite Hp. simpl.
    fold h1. rewrite (read_steps_dict_agree h h1 s), Hs; [done|].
    by apply lookup_insert_ne. }
  assert (read_cache h2 l = Some (n, p, s)) as Hl2.
  { rewrite (read_cache_agree h h2 l); [done|].
    unfold h2, h1. by rewrite !lookup_insert_ne. }
  assert (read_property_dict h2 p = Some (delete i dp)) as Hp2.
  { apply read_property_dict_Some. unfold h2, h1.
    rewrite lookup_insert_ne by done. apply lookup_insert_eq. }
  assert (read_steps_dict h2 s = Some (delete i ds)) as Hs2.
  { apply read_steps_dict_Some. apply lookup_insert_eq. }
  assert (forall j il, ds !! j = Some il ->
            read_step_dict h2 il = read_step_dict h il) as Hin2.
  { intros j il Hil. destruct (Hinner j il Hil). apply read_step_dict_agree.
    unfold h2, h1. by rewrite !lookup_insert_ne. }
  exists h2. split_and!; [done|..].
  - exists n, p, s, (delete i dp), (delete i ds). split_and!; [done..|].
    intros j il [_ Hil]%lookup_delete_Some. rewrite (Hin2 j il Hil).
    by apply (Hwf j il).
  - unfold view. rewrite Hl2. simpl. rewrite Hp2, Hs2. simpl.
    f_equal. unfold flush_value. simpl. f_equal.
    rewrite omap_delete. f_equal. by apply omap_ext.
  - intros x Hx.
    apply (elem_of_footprint h2 l n p s (delete i ds) x Hl2 Hs2) in Hx.
    apply (elem_of_footprint h l n p s ds x Hl Hs).
    destruct Hx as [?|[?|[?|[j [_ Hj]%lookup_delete_Some]]]]; eauto.
  - intros l0 Hl0'. unfold h2, h1.
    rewrite !lookup_insert_ne; [done|intros <-..];
      apply Hl0', (elem_of_footprint h l n p s ds _ Hl Hs); eauto.
Qed.

Lemma flush_all_spec (X : gset loc) (ids : list string) (h : heap) (l : loc)
    (c : AssignmentCache) :
  is_cache h l -> view h l = Some c -> footprint h l ## X ->
  exists h',
    foldl (fun state identifier =>
             h ← state; flush_property_from_cache h l identifier)
          (Some h) ids = Some h' /\
    is_cache h' l /\
    view h' l = Some (foldl flush_value c ids) /\
    footprint h' l ## X /\
    (forall l0, l0 ∈ X -> h' !! l0 = h !! l0).
Proof.
  revert h c. induction ids as [|i ids IH]; intros h c Hc Hview Hdisj.
  - exists h. by split_and!.
  - destruct (flush_spec h l i c Hc Hview)
      as (h1 & Hflush & Hc1 & Hview1 & Hsub & Hframe).
    assert (footprint h1 l ## X) as Hdisj1 by set_solver.
    destruct (IH h1 _ Hc1 Hview1 Hdisj1) as (h2 & Hfold & Hc2 & Hview2 & Hd2 & Hf2).
    exists h2. cbn [foldl]. simpl. rewrite Hflush. split_and!; [done..|].
    intros l0 Hl0. rewrite (Hf2 l0 Hl0). apply Hframe. set_solver.
Qed.

Lemma genome_property_identifiers_view (h : heap) (l : loc) (c : AssignmentCache) :
  view h l = Some c ->
  genome_property_identifiers h l = Some (identifiers_of_value c).
Proof.
  unfold view, genome_property_identifiers.
  destruct (read_cache h l) as [[[n p] s]|]; simpl; [|done].
  destruct (read_property_dict h p) as [dp|]; simpl; [|done].
  destruct (read_steps_dict h s) as [ds|]; simpl; [|done].
  by intros [= <-].
Qed.

(** C6: on references, [create_synchronized_assignment_cache] returns a
    cache made of objects that did not exist before the call, and changes no
    object that did: the input cache stands for the same value after the
    call, with the same property assignments, step assignments and
    identifiers, and no later change of the objects of the returned cache,
    nor any later allocation, changes it.  The returned cache stands for
    the synchronized value. *)
Theorem create_synchronized_assignment_cache_frame
    (h : heap) (l : loc) (c : AssignmentCache) (t : GenomePropertiesTree) :
  is_cache h l -> view h l = Some c ->
  exists h' l',
    create_synchronized_assignment_cache h l t = Some (h', l') /\
    preserved h h' /\
    view h' l = Some c /\
    view h' l' = Some (synchronized_value c t) /\
    footprint h' l' ## dom h /\
    (forall h'',
       (forall l0, l0 ∈ dom h' -> l0 ∉ footprint h' l' -> h'' !! l0 = h' !! l0) ->
       view h'' l = Some c).
Proof.
  intros Hc Hview.
  destruct (deepcopy_spec h l Hc) as (h1 & l' & Hcopy & Hpres1 & Hc1 & Hview1 & Hd1).
  rewrite Hview in Hview1.
  destruct (flush_all_spec (dom h) (elements (unshared_identifiers c t)) h1 l' c
              Hc1 Hview1 Hd1) as (h2 & Hfold & Hc2 & Hview2 & Hd2 & Hframe).
  assert (preserved h h2) as Hpres2.
  { intros l0 Hl0. rewrite (Hframe l0 Hl0). by apply Hpres1. }
  exists h2, l'. split_and!; [|done| |done|done|].
  - unfold create_synchronized_assignment_cache.
    rewrite (genome_property_identifiers_view h l c Hview). simpl.
    rewrite Hcopy. simpl.
    fold (assignment_cache_identifiers c). fold (unshared_identifiers c t).
    by rewrite Hfold.
  - destruct (view_preserved h h2 l Hc Hpres2) as (_ & -> & _). done.
  - intros h3 Hrest.
    assert (preserved h h3) as Hpres3.
    { intros l0 Hl0. rewrite Hrest; [by apply Hpres2| |set_solver].
      by apply (preserved_dom h h2). }
    destruct (view_preserved h h3 l Hc Hpres3) as (_ & -> & _). done.
Qed.

End store.

(** ** The worked examples *)

Section examples.
Import Example.

#[local] Abbreviation cache_B_steps_E :=
  {| sample_name := "sample";
     property_assignments := {[ "B" := YES ]};
     step_assignments := {[ "E" := {[ 1 := YES ]} ]} |}.

#[local] Abbreviation example_init :=
  (GenomePropertiesResults_init spec_assign_genome_property
     [sample1; sample2] example_tree).

Lemma example_constructed : example_init = Return example_results.
Proof. vm_compute. reflexivity. Qed.

(** C1 (amended) on the reconciliation example: a tree with A, B, C and a
    cache with B, C, D leave B and C, and of the step entries, of B and D,
    that of B. *)
Lemma synchronized_cache_of_example :
  assignment_cache_identifiers
    (create_synchronized_assignment_cache cache_BCD tree_ABC) = {[ "B"; "C" ]} /\
  dom (step_assignments (create_synchronized_assignment_cache cache_BCD tree_ABC))
    = {[ "B" ]}.
Proof.
  destruct (create_synchronized_assignment_cache_shared cache_BCD tree_ABC)
    as (Hids & _ & _ & _ & Hsteps & _).
  split.
  - rewrite Hids. vm_compute. reflexivity.
  - rewrite Hsteps. vm_compute. reflexivity.
Defined.

(** C1 as stated fails.  The cache knows the identifier B and holds a step
    entry of E, which neither the tree, with A, B and C, nor the identifiers
    of the cache list: E is not in the symmetric difference, is not
    flushed, and the synchronized cache still holds its step entry. *)
Lemma synchronized_cache_keeps_step_entry :
  ("E" ∉ tree_identifiers tree_ABC) /\
  ("E" ∉ assignment_cache_identifiers cache_B_steps_E) /\
  ("E" ∉ tree_identifiers tree_ABC ∩ assignment_cache_identifiers cache_B_steps_E) /\
  step_assignments (create_synchronized_assignment_cache cache_B_steps_E tree_ABC)
    !! "E" = Some {[ 1 := YES ]}.
Proof.
  assert (tree_identifiers tree_ABC = {[ "A"; "B"; "C" ]}) as Ht
    by (vm_compute; reflexivity).
  assert (assignment_cache_identifiers cache_B_steps_E = {[ "B" ]}) as Hc
    by (vm_compute; reflexivity).
  rewrite Ht, Hc. split_and!; [set_solver..|]. vm_compute. reflexivity.
Qed.

(** C2 as stated fails.  Property B is no row of the table of the first
    sample, and its entry for that sample in the combined table is NaN, not
    NO; so is the entry of step 1 of property A in the combined step table.
    The same on two tables written out: the join of a table with the row A
    and a table without it has NaN for the second. *)
Lemma combined_table_missing_entry_is_NaN :
  example_init = Return example_results /\
  rows (create_assignment_tables spec_assign_genome_property
          example_tree sample1).1 !! "B" = None /\
  cell_at (property_results example_results) "B" 0 = Some NaN /\
  cell_at (property_results example_results) "B" 0 ≠ Some (Some NO) /\
  rows (create_assignment_tables spec_assign_genome_property
          example_tree sample1).2 !! ("A", 1) = None /\
  cell_at (step_results example_results) ("A", 1) 0 = Some NaN /\
  (joined ← concat_axis1 [from_dict_index {[ "A" := YES ]} "Property_Result";
                          from_dict_index ∅ "Property_Result"];
   set_columns joined ["sample1"; "sample2"])
  = Return {| columns := ["sample1"; "sample2"];
              rows := {[ "A" := [Some YES; NaN] ]} |}.
Proof.
  split; [apply example_constructed|].
  split_and!; try (vm_compute; reflexivity). vm_compute. discriminate.
Qed.

(** C2 (amended) on the two samples: the entries of B and of step 1 of C. *)
Lemma combined_tables_entries_example :
  example_init = Return example_results /\
  cell_at (property_results example_results) "B" 0 = Some NaN /\
  cell_at (property_results example_results) "B" 1 = Some (Some NO) /\
  cell_at (step_results example_results) ("C", 1) 1 = Some NaN.
Proof.
  split; [apply example_constructed|].
  destruct (combined_tables_entries spec_assign_genome_property
              [sample1; sample2] example_tree example_results
              example_constructed) as (_ & Hp & _ & Hs).
  assert (is_Some (rows (property_results example_results) !! "B")) as HB.
  { vm_compute. eauto. }
  assert (is_Some (rows (step_results example_results) !! ("C", 1))) as HC.
  { vm_compute. eauto. }
  split_and!.
  - apply (Hp "B" 0%nat sample1 HB eq_refl). vm_compute. reflexivity.
  - destruct (Hp "B" 1%nat sample2 HB eq_refl) as [-> _]. vm_compute. reflexivity.
  - apply (Hs ("C", 1) 1%nat sample2 HC eq_refl). vm_compute. reflexivity.
Defined.

(** C3 on the two samples: labels that are no row, and rows. *)
Lemma lookups_default_to_NO_example :
  example_init = Return example_results /\
  get_property_result example_results "Z" = Return [Some NO; Some NO] /\
  get_property_result example_results "D" = Return [Some YES; NaN] /\
  get_step_result example_results "Z" 7 = Return [Some NO; Some NO] /\
  get_step_result example_results "ROOT" 7 = Return [Some NO; Some NO] /\
  get_step_result example_results "ROOT" 3 = Return [Some NO; Some NO] /\
  get_step_result example_results "C" 1 = Return [Some YES; NaN].
Proof.
  split; [apply example_constructed|].
  destruct (lookups_default_to_NO spec_assign_genome_property
              [sample1; sample2] example_tree example_results
              example_constructed) as (Hp0 & Hp1 & Hs0 & Hs1).
  split_and!.
  - apply (Hp0 "Z"). vm_compute. reflexivity.
  - apply (Hp1 "D"). vm_compute. reflexivity.
  - apply (Hs0 "Z" 7). vm_compute. reflexivity.
  - apply (Hs0 "ROOT" 7). vm_compute. reflexivity.
  - apply (Hs1 "ROOT" 3). vm_compute. reflexivity.
  - apply (Hs1 "C" 1). vm_compute. reflexivity.
Defined.

(** C7 on the two samples. *)
Lemma constructor_column_order_example :
  [sample1; sample2] ≠ [] /\
  exists self, example_init = Return self /\
    sample_names self = ["sample1"; "sample2"] /\
    columns (property_results self) = ["sample1"; "sample2"] /\
    columns (step_results self) = ["sample1"; "sample2"] /\
    columns (property_results self) = columns (step_results self).
Proof.
  assert ([sample1; sample2] ≠ []) as Hne by discriminate.
  split; [done|].
  apply (constructor_column_order spec_assign_genome_property
           [sample1; sample2] example_tree Hne).
Defined.

Lemma not_all_identical_YES_NaN : ~ all_identical [Some YES; NaN].
Proof.
  intros Hall. specialize (Hall (Some YES) NaN). discriminate Hall.
  - left.
  - right; left.
Qed.


(** C4 as stated fails.  Property D is YES in the first sample and has no
    value in the second:
    its values are not all identical, yet the differential filter drops
    it. *)
Lemma differing_drops_row_with_missing_entry :
  example_init = Return example_results /\
  rows (property_results example_results) !! "D" = Some [Some YES; NaN] /\
  ~ all_identical [Some YES; NaN] /\
  rows (differing_property_results example_results) !! "D" = None.
Proof.
  split; [apply example_constructed|].
  split_and!; [vm_compute; reflexivity|apply not_all_identical_YES_NaN|].
  vm_compute. reflexivity.
Qed.


(** C4 (amended) on the two samples.  Property A is YES then NO and is
    kept by the differential filter; property E is NO twice and is dropped;
    so is step 3 of ROOT. *)
Lemma differing_results_example :
  rows (differing_property_results example_results) !! "A"
    = Some [Some YES; Some NO] /\
  rows (differing_property_results example_results) !! "E" = None /\
  rows (differing_step_results example_results) !! ("ROOT", 3) = None.
Proof.
  destruct (differing_results_exactly example_results) as [Hp Hs].
  assert (one_value [Some NO; Some NO]) as Hone.
  { exists NO. split; [left|]. intros x Hx. apply list_elem_of_In in Hx.
    simpl in Hx. destruct Hx as [<-|[<-|[]]]; by left. }
  split_and!.
  - destruct (Hp "A" [Some YES; Some NO]) as (_ & _ & Hkept & _).
    { vm_compute. reflexivity. }
    apply (Hkept YES NO); [left|right; left|discriminate].
  - destruct (Hp "E" [Some NO; Some NO]) as (Hdrop & _).
    { vm_compute. reflexivity. }
    by apply Hdrop.
  - destruct (Hs ("ROOT", 3) [Some NO; Some NO]) as (Hdrop & _).
    { vm_compute. reflexivity. }
    by apply Hdrop.
Defined.


Lemma example_heap_is_cache : Store.is_cache Store.example_heap 3%positive.
Proof.
  exists "sample", 1%positive, 2%positive,
    {[ "B" := YES; "C" := NO; "D" := PARTIAL ]},
    {[ "B" := 4%positive; "D" := 4%positive ]}.
  split_and!; try (vm_compute; reflexivity).
  intros i il Hil. exists {[ 1 := YES ]}.
  apply lookup_insert_Some in Hil as [[_ <-]|[_ Hil]]; [vm_compute; reflexivity|].
  apply lookup_singleton_Some in Hil as [_ <-]. vm_compute. reflexivity.
Qed.

(** C6 on the cache of the reconciliation example in a store: the call
    returns a new cache and the cache at reference 3 is still the cache it
    was. *)
Lemma create_synchronized_assignment_cache_frame_example :
  exists h' l',
    Store.create_synchronized_assignment_cache Store.example_heap 3%positive tree_ABC
      = Some (h', l') /\
    Store.preserved Store.example_heap h' /\
    Store.view h' 3%positive = Some cache_BCD /\
    Store.view h' l' = Some (create_synchronized_assignment_cache cache_BCD tree_ABC) /\
    Store.footprint h' l' ## dom Store.example_heap /\
    (forall h'',
       (forall l0, l0 ∈ dom h' -> l0 ∉ Store.footprint h' l' ->
                   h'' !! l0 = h' !! l0) ->
       Store.view h'' 3%positive = Some cache_BCD).
Proof.
  apply (create_synchronized_assignment_cache_frame Store.example_heap 3%positive
           cache_BCD tree_ABC example_heap_is_cache).
  vm_compute. reflexivity.
Defined.

End examples.

(** * Further properties *)

(** ** Synchronisation *)

Section synchronisation_further.

Lemma cache_eq (a b : AssignmentCache) :
  sample_name a = sample_name b ->
  (forall i, property_assignments a !! i = property_assignments b !! i) ->
  (forall i, step_assignments a !! i = step_assignments b !! i) ->
  a = b.
Proof.
  destruct a as [na pa sa], b as [nb pb sb]. simpl. intros -> Hp Hs.
  f_equal; by apply map_eq.
Qed.

(** The entries of the synchronized cache, identifier by identifier. *)
Lemma synchronized_lookup (c : AssignmentCache) (t : GenomePropertiesTree) (i : string) :
  let s := create_synchronized_assignment_cache c t in
  (i ∈ unshared_identifiers c t ->
   property_assignments s !! i = None /\ step_assignments s !! i = None) /\
  (i ∉ unshared_identifiers c t ->
   property_assignments s !! i = property_assignments c !! i /\
   step_assignments s !! i = step_assignments c !! i).
Proof.
  intros s. split; intros Hi.
  - apply flush_all_flushed. by rewrite elem_of_elements.
  - apply flush_all_kept. by rewrite elem_of_elements.
Qed.

Lemma synchronized_sample_name (c : AssignmentCache) (t : GenomePropertiesTree) :
  sample_name (create_synchronized_assignment_cache c t) = sample_name c.
Proof. apply flush_all_sample_name. Qed.

Lemma synchronized_again (c : AssignmentCache) (t : GenomePropertiesTree) :
  create_synchronized_assignment_cache (create_synchronized_assignment_cache c t) t
  = create_synchronized_assignment_cache c t.
Proof.
  set (s := create_synchronized_assignment_cache c t).
  assert (forall i, i ∈ unshared_identifiers s t ->
            property_assignments s !! i = None /\ step_assignments s !! i = None)
    as Hgone.
  { intros i Hi. apply elem_of_unshared_identifiers in Hi.
    rewrite elem_of_assignment_cache_identifiers in Hi.
    destruct (decide (i ∈ unshared_identifiers c t)) as [Hu|Hu].
    { by apply (synchronized_lookup c t i). }
    destruct (proj2 (synchronized_lookup c t i) Hu) as [Hp Hs]. fold s in Hp, Hs.
    rewrite elem_of_unshared_identifiers, elem_of_assignment_cache_identifiers in Hu.
    rewrite Hp in Hi. exfalso. destruct Hi as [[Ht Hn]|[Hsome Hn]]; naive_solver. }
  apply cache_eq.
  - apply synchronized_sample_name.
  - intros i. destruct (decide (i ∈ unshared_identifiers s t)) as [Hu|Hu].
    + destruct (proj1 (synchronized_lookup s t i) Hu) as [-> _].
      by destruct (Hgone i Hu) as [-> _].
    + by destruct (proj2 (synchronized_lookup s t i) Hu) as [-> _].
  - intros i. destruct (decide (i ∈ unshared_identifiers s t)) as [Hu|Hu].
    + destruct (proj1 (synchronized_lookup s t i) Hu) as [_ ->].
      by destruct (Hgone i Hu) as [_ ->].
    + by destruct (proj2 (synchronized_lookup s t i) Hu) as [_ ->].
Qed.

(** X1: synchronisation only removes entries: every property entry and
    every step entry of the synchronized cache is an entry of the input
    cache with the same value, and the sample name is the input's. *)
Theorem create_synchronized_assignment_cache_only_removes
    (c : AssignmentCache) (t : GenomePropertiesTree) :
  let s := create_synchronized_assignment_cache c t in
  property_assignments s ⊆ property_assignments c /\
  step_assignments s ⊆ step_assignments c /\
  sample_name s = sample_name c.
Proof.
  intros s. split_and!; [| |apply synchronized_sample_name].
  - apply map_subseteq_spec. intros i x Hi.
    destruct (decide (i ∈ unshared_identifiers c t)) as [Hu|Hu].
    + destruct (proj1 (synchronized_lookup c t i) Hu) as [Hp _].
      fold s in Hp. by rewrite Hp in Hi.
    + destruct (proj2 (synchronized_lookup c t i) Hu) as [Hp _].
      fold s in Hp. by rewrite <- Hp.
  - apply map_subseteq_spec. intros i x Hi.
    destruct (decide (i ∈ unshared_identifiers c t)) as [Hu|Hu].
    + destruct (proj1 (synchronized_lookup c t i) Hu) as [_ Hs].
      fold s in Hs. by rewrite Hs in Hi.
    + destruct (proj2 (synchronized_lookup c t i) Hu) as [_ Hs].
      fold s in Hs. by rewrite <- Hs.
Qed.

(** X2: when the tree and the cache have the same identifiers there is
    nothing to flush, and the synchronized cache is the input cache. *)
Theorem create_synchronized_assignment_cache_no_mismatch
    (c : AssignmentCache) (t : GenomePropertiesTree) :
  tree_identifiers t = assignment_cache_identifiers c ->
  create_synchronized_assignment_cache c t = c.
Proof.
  intros Heq. unfold create_synchronized_assignment_cache, unshared_identifiers.
  rewrite Heq.
  replace (symmetric_difference (assignment_cache_identifiers c)
             (assignment_cache_identifiers c)) with (∅ : gset string).
  - by rewrite elements_empty.
  - unfold symmetric_difference. set_solver.
Qed.

(** X3: synchronisation is idempotent: synchronizing a synchronized cache
    against the same tree changes nothing. *)
Theorem create_synchronized_assignment_cache_idempotent
    (c : AssignmentCache) (t : GenomePropertiesTree) :
  let s := create_synchronized_assignment_cache c t in
  create_synchronized_assignment_cache s t = s /\
  unshared_identifiers s t
    = tree_identifiers t ∖ assignment_cache_identifiers c.
Proof.
  intros s. split; [apply synchronized_again|].
  apply set_eq. intros i.
  rewrite elem_of_unshared_identifiers, elem_of_difference.
  rewrite !elem_of_assignment_cache_identifiers.
  destruct (decide (i ∈ unshared_identifiers c t)) as [Hu|Hu].
  - destruct (proj1 (synchronized_lookup c t i) Hu) as [Hp _]. fold s in Hp.
    rewrite Hp. apply elem_of_unshared_identifiers in Hu.
    rewrite elem_of_assignment_cache_identifiers in Hu.
    split; [intros [[? ?]|[[? ?] ?]]|]; naive_solver.
  - destruct (proj2 (synchronized_lookup c t i) Hu) as [Hp _]. fold s in Hp.
    rewrite Hp. rewrite elem_of_unshared_identifiers in Hu.
    rewrite elem_of_assignment_cache_identifiers in Hu.
    split; [|naive_solver]. intros [[? ?]|[? ?]]; [done|]. naive_solver.
Qed.

End synchronisation_further.

(** ** The per-sample tables, further *)

Section sample_tables_further.

Lemma elem_of_step_rows (i : string) (step : gmap Z string) (y : string * Z * string) :
  y ∈ ('(step_number, step_result) ← map_to_list step;
       [(i, step_number, step_result)]) <->
  exists n r, y = (i, n, r) /\ step !! n = Some r.
Proof.
  rewrite list_elem_of_bind. split.
  - intros [[n r] [Hy Hnr]]. apply list_elem_of_singleton in Hy.
    apply elem_of_map_to_list in Hnr. eauto.
  - intros (n & r & -> & Hnr). exists (n, r).
    split; [by apply list_elem_of_singleton|by apply elem_of_map_to_list].
Qed.

Lemma NoDup_create_step_table_rows (sa : gmap string (gmap Z string)) :
  NoDup (create_step_table_rows sa).
Proof.
  unfold create_step_table_rows. apply NoDup_bind.
  - intros [i1 s1] [i2 s2] y H1 H2 Hy1 Hy2.
    apply elem_of_map_to_list in H1, H2.
    apply elem_of_step_rows in Hy1 as (n1 & r1 & -> & _).
    apply elem_of_step_rows in Hy2 as (n2 & r2 & [= <- _ _] & _).
    rewrite H1 in H2. by injection H2 as ->.
  - intros [i step] _. apply NoDup_bind.
    + intros [n1 r1] [n2 r2] y _ _ Hy1 Hy2.
      apply list_elem_of_singleton in Hy1, Hy2. congruence.
    + intros [n r] _. apply NoDup_singleton.
    + apply NoDup_map_to_list.
  - apply NoDup_map_to_list.
Qed.

(** X4: [create_step_table_rows] yields a row for a property, a step number
    and a result exactly when the dict of dicts holds that result for that
    step of that property; it yields no row twice, and no two rows for the
    same property and step number. *)
Theorem create_step_table_rows_exactly_once (sa : gmap string (gmap Z string)) :
  (forall i n r,
     (i, n, r) ∈ create_step_table_rows sa <-> sa !! i ≫= (.!! n) = Some r) /\
  NoDup (create_step_table_rows sa) /\
  NoDup ((fun '(i, n, _) => (i, n)) <$> create_step_table_rows sa).
Proof.
  assert (forall i n r,
     (i, n, r) ∈ create_step_table_rows sa <-> sa !! i ≫= (.!! n) = Some r) as Hin.
  { intros i n r. rewrite elem_of_create_step_table_rows, bind_Some. done. }
  split_and!; [done|apply NoDup_create_step_table_rows|].
  apply NoDup_fmap_2_strong; [|apply NoDup_create_step_table_rows].
  intros [[i1 n1] r1] [[i2 n2] r2] H1 H2 [= <- <-].
  apply Hin in H1, H2. rewrite H1 in H2. by injection H2 as ->.
Qed.

Section with_engine.
Variable assign_genome_property :
  AssignmentCache -> GenomeProperty -> AssignmentCache * string.

(** X5: of the two tables of a sample, each has a single column, and a
    label is a row exactly when the bootstrapped, synchronized cache holds
    an assignment for it, the row being that assignment: the property table
    by property identifier, the step table by identifier and step number. *)
Theorem create_assignment_tables_hold_assignments
    (t : GenomePropertiesTree) (c : AssignmentCache) :
  let assignments :=
    bootstrap_assignments assign_genome_property
      (create_synchronized_assignment_cache c t) t in
  let tables := create_assignment_tables assign_genome_property t c in
  columns tables.1 = ["Property_Result"] /\
  columns tables.2 = ["Step_Result"] /\
  (forall i,
     rows tables.1 !! i
       = (fun r => [Some r]) <$> property_assignments assignments !! i) /\
  (forall i n,
     rows tables.2 !! (i, n)
       = (fun r => [Some r]) <$> (step_assignments assignments !! i ≫= (.!! n))).
Proof.
  intros assignments tables. split_and!; [done|done| |].
  - intros i. unfold tables. simpl. by rewrite lookup_fmap.
  - intros i n. unfold tables. cbn [create_assignment_tables snd].
    by rewrite step_frame_lookup.
Qed.

(** X7: synchronizing the caches beforehand changes nothing: the
    constructor builds the same results object from the synchronized caches
    as from the caches themselves. *)
Theorem constructor_of_synchronized_caches (caches : list AssignmentCache)
    (t : GenomePropertiesTree) :
  GenomePropertiesResults_init assign_genome_property
    ((fun c => create_synchronized_assignment_cache c t) <$> caches) t
  = GenomePropertiesResults_init assign_genome_property caches t.
Proof.
  unfold GenomePropertiesResults_init. rewrite !collect_tables_map.
  assert (forall c, create_assignment_tables assign_genome_property t
                      (create_synchronized_assignment_cache c t)
                    = create_assignment_tables assign_genome_property t c) as Htab.
  { intros c. unfold create_assignment_tables. by rewrite synchronized_again. }
  set (sync := fun c => create_synchronized_assignment_cache c t).
  assert ((fun c => (create_assignment_tables assign_genome_property t c).1)
            <$> (sync <$> caches)
          = (fun c => (create_assignment_tables assign_genome_property t c).1)
            <$> caches) as ->.
  { rewrite <- list_fmap_compose. apply list_fmap_ext. intros j c _.
    unfold compose, sync. by rewrite Htab. }
  assert ((fun c => (create_assignment_tables assign_genome_property t c).2)
            <$> (sync <$> caches)
          = (fun c => (create_assignment_tables assign_genome_property t c).2)
            <$> caches) as ->.
  { rewrite <- list_fmap_compose. apply list_fmap_ext. intros j c _.
    unfold compose, sync. by rewrite Htab. }
  assert (sample_name <$> (sync <$> caches) = sample_name <$> caches) as ->.
  { rewrite <- list_fmap_compose. apply list_fmap_ext. intros j c _.
    apply synchronized_sample_name. }
  done.
Qed.

(** X8: in both tables of a constructed results object every row has one
    entry per sample, and both lookups return a vector with one entry per
    sample, for every identifier and step number. *)
Theorem constructed_tables_shape (caches : list AssignmentCache)
    (t : GenomePropertiesTree) (self : GenomePropertiesResults) :
  GenomePropertiesResults_init assign_genome_property caches t = Return self ->
  (forall k row, rows (property_results self) !! k = Some row ->
     length row = length caches) /\
  (forall k row, rows (step_results self) !! k = Some row ->
     length row = length caches) /\
  (forall i, exists vector,
     get_property_result self i = Return vector /\ length vector = length caches) /\
  (forall i n, exists vector,
     get_step_result self i n = Return vector /\ length vector = length caches).
Proof.
  intros Hinit.
  destruct (combined_tables_rows assign_genome_property caches t self Hinit)
    as (_ & Hprow & _ & Hsrow).
  destruct (init_inv assign_genome_property _ _ _ Hinit)
    as (c & caches' & _ & _ & Hpc & Hsc & _).
  assert (forall k row, rows (property_results self) !! k = Some row ->
            length row = length caches) as Hp.
  { intros k row Hrow. by rewrite (Hprow k row Hrow), length_fmap. }
  assert (forall k row, rows (step_results self) !! k = Some row ->
            length row = length caches) as Hs.
  { intros k row Hrow. by rewrite (Hsrow k row Hrow), length_fmap. }
  split_and!; [done|done| |].
  - intros i. eexists. split; [apply get_property_result_lookup|].
    destruct (rows (property_results self) !! i) as [row|] eqn:Hrow; simpl.
    + by apply (Hp i).
    + by rewrite length_replicate, Hpc, length_fmap.
  - intros i n. eexists. split; [apply get_step_result_lookup|].
    destruct (rows (step_results self) !! (i, n)) as [row|] eqn:Hrow; simpl.
    + by apply (Hs (i, n)).
    + by rewrite length_replicate, Hsc, length_fmap.
Qed.

End with_engine.

End sample_tables_further.

(** ** The row filters, further *)

Section filters_further.
Context {K : Type} `{Countable K}.

Lemma frame_eq (a b : DataFrame K) :
  columns a = columns b -> rows a = rows b -> a = b.
Proof. destruct a, b. simpl. by intros -> ->. Qed.

Lemma dropped_dec (f : DataFrame K) (b : bool) (k : K) :
  dropped f b k \/ ~ dropped f b k.
Proof.
  destruct (rows f !! k) as [row|] eqn:Hrow.
  - destruct (decide (nunique row = 1%nat /\
                      (b = true -> head row = Some (Some NO)))) as [[? ?]|Hn].
    + left. exists row. by split_and!.
    + right. intros (r & Hr & ? & ?). rewrite Hrow in Hr. injection Hr as <-.
      by apply Hn.
  - right. intros (r & Hr & _). by rewrite Hrow in Hr.
Qed.

Lemma remove_results_lookup_None (f : DataFrame K) (b : bool) (k : K) :
  rows f !! k = None ->
  rows (remove_results_with_shared_assignments f b) !! k = None.
Proof.
  intros Hk. rewrite remove_results_lookup_kept; [done|].
  intros (r & Hr & _). by rewrite Hk in Hr.
Qed.

(** A row that the filter kept is not one it would drop. *)
Lemma kept_not_dropped (f : DataFrame K) (b b' : bool) (k : K) :
  (b = true -> b' = true) ->
  ~ dropped (remove_results_with_shared_assignments f b) b' k \/
  rows (remove_results_with_shared_assignments f b) !! k = None.
Proof.
  intros Hb. destruct (dropped_dec f b k) as [Hd|Hd].
  - right. by apply remove_results_lookup_dropped.
  - left. intros (row & Hrow & Hn & Hno). apply Hd.
    rewrite remove_results_lookup_kept in Hrow by done.
    exists row. split_and!; [done..|]. intros Hbt. apply Hno, Hb, Hbt.
Qed.

(** X10: filtering is idempotent, and the differential filter absorbs the
    supported-only filter: filtering a filtered table again changes nothing,
    and the differing rows of the supported rows, like the supported rows
    of the differing rows, are the differing rows. *)
Theorem remove_results_with_shared_assignments_idempotent (f : DataFrame K) :
  (forall b,
     remove_results_with_shared_assignments
       (remove_results_with_shared_assignments f b) b
     = remove_results_with_shared_assignments f b) /\
  remove_results_with_shared_assignments
    (remove_results_with_shared_assignments f false) true
  = remove_results_with_shared_assignments f false /\
  remove_results_with_shared_assignments
    (remove_results_with_shared_assignments f true) false
  = remove_results_with_shared_assignments f false.
Proof.
  assert (forall b b', (b = true -> b' = true) ->
            remove_results_with_shared_assignments
              (remove_results_with_shared_assignments f b) b'
            = remove_results_with_shared_assignments f b) as Hagain.
  { intros b b' Hb. apply frame_eq; [done|]. apply map_eq. intros k.
    destruct (kept_not_dropped f b b' k Hb) as [Hk|Hk].
    - by apply remove_results_lookup_kept.
    - rewrite Hk. by apply remove_results_lookup_None. }
  split_and!.
  - intros b. by apply Hagain.
  - by apply Hagain.
  - apply frame_eq; [done|]. apply map_eq. intros k.
    destruct (dropped_dec f false k) as [Hd|Hd].
    + rewrite (remove_results_lookup_dropped f false k Hd).
      destruct Hd as (row & Hrow & Hn & _).
      destruct (dropped_dec f true k) as [Ht|Ht].
      * apply remove_results_lookup_None.
        by apply remove_results_lookup_dropped.
      * apply remove_results_lookup_dropped. exists row.
        rewrite remove_results_lookup_kept by done. by split_and!.
    + assert (~ dropped f true k) as Ht.
      { intros Ht. by apply Hd, dropped_supported_differing. }
      rewrite (remove_results_lookup_kept f false k Hd).
      rewrite <- (remove_results_lookup_kept f true k Ht).
      apply remove_results_lookup_kept.
      intros (row & Hrow & Hn & _). apply Hd.
      rewrite remove_results_lookup_kept in Hrow by done.
      exists row. by split_and!.
Qed.

(** X11: what the filter drops, rows with missing entries included.  The
    differential filter drops a row exactly when one string occurs in it
    and every other entry is that string or NaN; the supported-only filter
    drops it exactly when, moreover, its first entry is NO.  A row that is
    not dropped is kept with its values. *)
Theorem remove_results_with_shared_assignments_drops
    (f : DataFrame K) (k : K) (row : list cell) :
  rows f !! k = Some row ->
  (rows (remove_results_with_shared_assignments f false) !! k = None <->
   exists v, Some v ∈ row /\ forall x, x ∈ row -> x = Some v \/ x = NaN) /\
  (rows (remove_results_with_shared_assignments f true) !! k = None <->
   head row = Some (Some NO) /\ forall x, x ∈ row -> x = Some NO \/ x = NaN) /\
  (forall b,
     rows (remove_results_with_shared_assignments f b) !! k = None \/
     rows (remove_results_with_shared_assignments f b) !! k = Some row).
Proof.
  intros Hrow.
  assert (forall b, dropped f b k <->
            nunique row = 1%nat /\ (b = true -> head row = Some (Some NO))) as Hd.
  { intros b. split.
    - intros (r & Hr & ? & ?). rewrite Hrow in Hr. by injection Hr as <-.
    - intros [? ?]. exists row. by split_and!. }
  assert (forall b, rows (remove_results_with_shared_assignments f b) !! k = None
                    <-> dropped f b k) as Hnone.
  { intros b. split.
    - intros Hk. destruct (dropped_dec f b k) as [?|Hn]; [done|].
      rewrite remove_results_lookup_kept in Hk by done. by rewrite Hrow in Hk.
    - apply remove_results_lookup_dropped. }
  split_and!.
  - rewrite Hnone, Hd, nunique_one. naive_solver.
  - rewrite Hnone, Hd, nunique_one. split.
    + intros [(v & Hv & Hall) Hhd]. specialize (Hhd eq_refl).
      split; [done|]. intros x Hx.
      assert (Some NO ∈ row) as Hin.
      { destruct row as [|y row']; [done|]. injection Hhd as ->. left. }
      destruct (Hall _ Hin) as [[= <-]|?]; [|done]. by apply Hall.
    + intros [Hhd Hall]. split; [|done]. exists NO. split; [|done].
      destruct row as [|y row']; [done|]. injection Hhd as ->. left.
  - intros b. destruct (dropped_dec f b k) as [Hk|Hk].
    + left. by apply remove_results_lookup_dropped.
    + right. by rewrite remove_results_lookup_kept.
Qed.

Lemma remove_results_all_single_valued (f : DataFrame K) :
  (forall k row, rows f !! k = Some row -> nunique row = 1%nat) ->
  rows (remove_results_with_shared_assignments f false) = ∅.
Proof.
  intros Hall. apply map_empty. intros k.
  destruct (rows f !! k) as [row|] eqn:Hrow.
  - apply remove_results_lookup_dropped. exists row.
    split_and!; [done|by apply (Hall k)|done].
  - by apply remove_results_lookup_None.
Qed.

End filters_further.

(** X9: the four filtered views only remove rows: each has the columns of
    its table, and every row of a view is a row of the table, with the same
    values. *)
Theorem filtered_views_only_remove_rows (self : GenomePropertiesResults) :
  (columns (differing_property_results self) = columns (property_results self) /\
   rows (differing_property_results self) ⊆ rows (property_results self)) /\
  (columns (supported_property_results self) = columns (property_results self) /\
   rows (supported_property_results self) ⊆ rows (property_results self)) /\
  (columns (differing_step_results self) = columns (step_results self) /\
   rows (differing_step_results self) ⊆ rows (step_results self)) /\
  (columns (supported_step_results self) = columns (step_results self) /\
   rows (supported_step_results self) ⊆ rows (step_results self)).
Proof.
  split_and!;
    first [apply remove_results_columns | apply remove_results_subseteq].
Qed.

(** ** A single sample *)

Section single_sample.
Variable assign_genome_property :
  AssignmentCache -> GenomeProperty -> AssignmentCache * string.

Lemma nunique_singleton (v : string) : nunique [Some v] = 1%nat.
Proof.
  apply nunique_one. exists v. split; [left|].
  intros x Hx. apply list_elem_of_singleton in Hx. by left.
Qed.

Lemma single_sample_rows (c : AssignmentCache) (t : GenomePropertiesTree)
    (self : GenomePropertiesResults) :
  GenomePropertiesResults_init assign_genome_property [c] t = Return self ->
  (forall k row, rows (property_results self) !! k = Some row ->
     exists v, row = [Some v]) /\
  (forall k row, rows (step_results self) !! k = Some row ->
     exists v, row = [Some v]).
Proof.
  intros Hinit.
  destruct (init_inv assign_genome_property _ _ _ Hinit)
    as (c' & caches' & [= <- <-] & _ & _ & _ & Hp & Hs).
  simpl in Hp, Hs. split.
  - intros k row. rewrite Hp, lookup_fmap.
    destruct (_ !! k) as [v|]; simpl; [|done]. intros [= <-]. eauto.
  - intros [i n] row.
    rewrite Hs.
    pose proof (step_frame_lookup
      (step_assignments (bootstrap_assignments assign_genome_property
         (create_synchronized_assignment_cache c t) t)) "Step_Result" i n) as Hl.
    simpl in Hl. rewrite Hl. destruct (_ ≫= _) as [v|]; simpl; [|done].
    intros [= <-]. eauto.
Qed.

(** X12: a results object built from a single sample has nothing that
    differs: both differing views are empty, and the supported views hold
    exactly the rows whose single value is not NO. *)
Theorem single_sample_views (c : AssignmentCache) (t : GenomePropertiesTree)
    (self : GenomePropertiesResults) :
  GenomePropertiesResults_init assign_genome_property [c] t = Return self ->
  rows (differing_property_results self) = ∅ /\
  rows (differing_step_results self) = ∅ /\
  (forall k v,
     rows (supported_property_results self) !! k = Some [Some v] <->
     rows (property_results self) !! k = Some [Some v] /\ v ≠ NO) /\
  (forall k v,
     rows (supported_step_results self) !! k = Some [Some v] <->
     rows (step_results self) !! k = Some [Some v] /\ v ≠ NO).
Proof.
  intros Hinit. destruct (single_sample_rows c t self Hinit) as [Hp Hs].
  assert (forall (K : Type) `(Countable K) (f : DataFrame K) k v,
            rows (remove_results_with_shared_assignments f true) !! k
              = Some [Some v] <->
            rows f !! k = Some [Some v] /\ v ≠ NO) as Hsup.
  { intros K ? ? f k v. split.
    - intros Hk. pose proof Hk as Hk'.
      apply (proj1 (map_subseteq_spec _ _) (remove_results_subseteq f true)) in Hk'.
      split; [done|]. intros ->.
      rewrite remove_results_lookup_dropped in Hk; [done|].
      exists [Some NO]. split_and!; [done|apply nunique_singleton|done].
    - intros [Hk Hv]. rewrite remove_results_lookup_kept; [done|].
      intros (row & Hrow & _ & Hhd). rewrite Hk in Hrow. injection Hrow as <-.
      specialize (Hhd eq_refl). simpl in Hhd. by injection Hhd as ->. }
  split_and!.
  - apply remove_results_all_single_valued. intros k row Hrow.
    destruct (Hp k row Hrow) as [v ->]. apply nunique_singleton.
  - apply remove_results_all_single_valued. intros k row Hrow.
    destruct (Hs k row Hrow) as [v ->]. apply nunique_singleton.
  - intros k v. apply Hsup.
  - intros k v. apply Hsup.
Qed.

End single_sample.

(** ** The export, further *)

Section export_further.

(** The children that the steps of a property contribute to its node. *)
#[local] Abbreviation step_nodes self i :=
  (fun step =>
     match step with
     | mkStep n step_name [] => [StepNode n step_name false (step_vector self i n)]
     | mkStep _ _ children => map (mirror_tree self) children
     end).

Lemma generate_json_tree_returns (self : GenomePropertiesResults)
    (p : GenomeProperty) :
  generate_json_tree self p = Return (mirror_tree self p).
Proof.
  induction p as [i name steps IH] using GenomeProperty_nested_ind.
  cbn [generate_json_tree mirror_tree].
  rewrite get_property_result_lookup. fold (property_vector self i).
  cbn [mbind outcome_bind].
  match goal with
  | |- context [foldl ?f (mret []) steps] =>
      assert (forall acc, foldl f (mret acc) steps
                = Return (acc ++ flat_map (step_nodes self i) steps)) as Hsteps
  end.
  { induction IH as [|[n step_name children] ss Hs _ IHss]; intros acc.
    - simpl. by rewrite app_nil_r.
    - cbn [foldl flat_map]. cbn [mbind outcome_bind mret outcome_ret].
      rewrite app_assoc. destruct children as [|g children].
      + rewrite get_step_result_lookup. fold (step_vector self i n).
        apply IHss.
      + pose proof (generate_children self (g :: children) acc Hs) as Hch.
        cbn [mret outcome_ret] in Hch. rewrite Hch. apply IHss. }
  by rewrite (Hsteps []).
Qed.

Lemma flat_map_flat_map {A B C} (f : B -> list C) (g : A -> list B) (l : list A) :
  flat_map f (flat_map g l) = flat_map (fun x => flat_map f (g x)) l.
Proof.
  induction l as [|x l IH]; [done|]. simpl. by rewrite flat_map_app, IH.
Qed.

Lemma flat_map_ext_Forall {A B} (f g : A -> list B) (l : list A) :
  Forall (fun x => f x = g x) l -> flat_map f l = flat_map g l.
Proof. induction 1 as [|x l Hx _ IH]; [done|]. simpl. by rewrite Hx, IH. Qed.

Lemma mirror_tree_property_ids (self : GenomePropertiesResults) (p : GenomeProperty) :
  exported_property_ids (mirror_tree self p) = property_occurrences p.
Proof.
  induction p as [i name steps IH] using GenomeProperty_nested_ind.
  cbn [mirror_tree exported_property_ids property_occurrences]. f_equal.
  rewrite flat_map_flat_map. apply flat_map_ext_Forall.
  eapply Forall_impl; [exact IH|]. intros [n step_name children] Hch.
  simpl in Hch. destruct children as [|g children]; [done|].
  rewrite flat_map_concat_map, map_map, <- flat_map_concat_map.
  by apply flat_map_ext_Forall.
Qed.

Lemma mirror_tree_step_ids (self : GenomePropertiesResults) (p : GenomeProperty) :
  exported_step_ids (mirror_tree self p) = childless_steps p.
Proof.
  induction p as [i name steps IH] using GenomeProperty_nested_ind.
  cbn [mirror_tree exported_step_ids childless_steps].
  rewrite flat_map_flat_map. apply flat_map_ext_Forall.
  eapply Forall_impl; [exact IH|]. intros [n step_name children] Hch.
  simpl in Hch. destruct children as [|g children]; [done|].
  rewrite flat_map_concat_map, map_map, <- flat_map_concat_map.
  by apply flat_map_ext_Forall.
Qed.

(** X14: the export holds one property node for every path from the given
    property to a property below it, and one leaf for every step without
    child properties on those paths, both in depth-first order. *)
Theorem generate_json_tree_covers_hierarchy (self : GenomePropertiesResults)
    (p : GenomeProperty) :
  exists tree_node,
    generate_json_tree self p = Return tree_node /\
    exported_property_ids tree_node = property_occurrences p /\
    exported_step_ids tree_node = childless_steps p.
Proof.
  exists (mirror_tree self p). split_and!.
  - apply generate_json_tree_returns.
  - apply mirror_tree_property_ids.
  - apply mirror_tree_step_ids.
Qed.

Lemma mirror_tree_results (self : GenomePropertiesResults) (p : GenomeProperty)
    (node : json_node) :
  node ∈ subnodes (mirror_tree self p) ->
  (exists i, node_result node = property_vector self i) \/
  (exists i n, node_result node = step_vector self i n).
Proof.
  revert node. induction p as [i name steps IH] using GenomeProperty_nested_ind.
  intros node. cbn [mirror_tree subnodes]. rewrite elem_of_cons.
  intros [->|Hin]; [left; by exists i|].
  apply list_elem_of_In, in_flat_map in Hin as (child & Hchild & Hin).
  apply in_flat_map in Hchild as (step & Hstep & Hchild).
  apply list_elem_of_In in Hstep.
  pose proof (proj1 (Forall_forall _ _) IH step Hstep) as IHstep.
  destruct step as [n step_name [|g children]].
  - destruct Hchild as [<-|[]]. simpl in Hin. destruct Hin as [<-|[]].
    right. by exists i, n.
  - apply in_map_iff in Hchild as (g' & <- & Hg').
    apply list_elem_of_In in Hg'.
    apply (proj1 (Forall_forall _ _) IHstep g' Hg'). by apply list_elem_of_In.
Qed.

Section with_engine.
Variable assign_genome_property :
  AssignmentCache -> GenomeProperty -> AssignmentCache * string.

Lemma lookup_vectors_length (caches : list AssignmentCache)
    (t : GenomePropertiesTree) (self : GenomePropertiesResults) :
  GenomePropertiesResults_init assign_genome_property caches t = Return self ->
  (forall i, length (property_vector self i) = length caches) /\
  (forall i n, length (step_vector self i n) = length caches).
Proof.
  intros Hinit.
  destruct (combined_tables_rows assign_genome_property caches t self Hinit)
    as (_ & Hprow & _ & Hsrow).
  destruct (init_inv assign_genome_property _ _ _ Hinit)
    as (c & caches' & _ & _ & Hpc & Hsc & _).
  split.
  - intros i. unfold property_vector.
    destruct (rows (property_results self) !! i) as [row|] eqn:Hrow; simpl.
    + by rewrite (Hprow i row Hrow), length_fmap.
    + by rewrite length_replicate, Hpc, length_fmap.
  - intros i n. unfold step_vector.
    destruct (rows (step_results self) !! (i, n)) as [row|] eqn:Hrow; simpl.
    + by rewrite (Hsrow (i, n) row Hrow), length_fmap.
    + by rewrite length_replicate, Hsc, length_fmap.
Qed.

(** X13: in the export of a constructed results object the result of every
    node, property node or leaf, has one entry per sample; so has the tree
    in the data that [to_json] serialises, beside the sample names in the
    order of the caches. *)
Theorem generate_json_tree_result_vectors (caches : list AssignmentCache)
    (t : GenomePropertiesTree) (self : GenomePropertiesResults) :
  GenomePropertiesResults_init assign_genome_property caches t = Return self ->
  (forall p, exists tree_node,
     generate_json_tree self p = Return tree_node /\
     forall node, node ∈ subnodes tree_node ->
       length (node_result node) = length caches) /\
  (exists tree_node,
     to_json_data self = Return (sample_name <$> caches, tree_node) /\
     forall node, node ∈ subnodes tree_node ->
       length (node_result node) = length caches).
Proof.
  intros Hinit.
  destruct (lookup_vectors_length caches t self Hinit) as [Hp Hs].
  assert (forall p node, node ∈ subnodes (mirror_tree self p) ->
            length (node_result node) = length caches) as Hlen.
  { intros p node Hnode.
    destruct (mirror_tree_results self p node Hnode) as [[i ->]|(i & n & ->)];
      [apply Hp|apply Hs]. }
  split.
  - intros p. exists (mirror_tree self p).
    split; [apply generate_json_tree_returns|apply Hlen].
  - exists (mirror_tree self (root (tree self))). split; [|apply Hlen].
    unfold to_json_data. rewrite generate_json_tree_returns.
    destruct (init_inv assign_genome_property _ _ _ Hinit)
      as (c & caches' & _ & Hnames & _). simpl. by rewrite Hnames.
Qed.

End with_engine.

End export_further.

(** ** Further worked examples *)

Section examples_further.
Import Example.

#[local] Abbreviation cache_ABC :=
  {| sample_name := "sample";
     property_assignments := {[ "A" := YES; "B" := NO; "C" := PARTIAL ]};
     step_assignments := {[ "A" := {[ 1 := NO; 2 := YES ]} ]} |}.

(** X2 on a cache that has the identifiers of the tree, A, B and C. *)
Lemma create_synchronized_assignment_cache_no_mismatch_example :
  tree_identifiers tree_ABC = assignment_cache_identifiers cache_ABC /\
  create_synchronized_assignment_cache cache_ABC tree_ABC = cache_ABC.
Proof.
  assert (tree_identifiers tree_ABC = assignment_cache_identifiers cache_ABC)
    as Heq by (vm_compute; reflexivity).
  split; [exact Heq|].
  apply (create_synchronized_assignment_cache_no_mismatch cache_ABC tree_ABC Heq).
Defined.

(** X8 on the two samples: a row, and the lookup of a label that is none. *)
Lemma constructed_tables_shape_example :
  GenomePropertiesResults_init spec_assign_genome_property
    [sample1; sample2] example_tree = Return example_results /\
  rows (property_results example_results) !! "D" = Some [Some YES; NaN] /\
  length [Some YES; NaN] = length [sample1; sample2] /\
  exists vector,
    get_property_result example_results "Z" = Return vector /\
    length vector = length [sample1; sample2].
Proof.
  split; [apply example_constructed|].
  destruct (constructed_tables_shape spec_assign_genome_property
              [sample1; sample2] example_tree example_results
              example_constructed) as (Hrows & _ & Hget & _).
  assert (rows (property_results example_results) !! "D" = Some [Some YES; NaN])
    as Hrow by (vm_compute; reflexivity).
  split; [exact Hrow|]. split; [apply (Hrows "D" _ Hrow)|apply (Hget "Z")].
Defined.

(** X11 on the two samples: B has no value in the first sample and NO in
    the second, and the differential filter drops it. *)
Lemma remove_results_with_shared_assignments_drops_example :
  rows (property_results example_results) !! "B" = Some [NaN; Some NO] /\
  rows (remove_results_with_shared_assignments
          (property_results example_results) false) !! "B" = None.
Proof.
  assert (rows (property_results example_results) !! "B" = Some [NaN; Some NO])
    as Hrow by (vm_compute; reflexivity).
  split; [exact Hrow|].
  destruct (remove_results_with_shared_assignments_drops
              (property_results example_results) "B" [NaN; Some NO] Hrow)
    as (Hdrop & _).
  apply Hdrop. exists NO. split; [right; left|].
  intros x Hx. apply list_elem_of_In in Hx. simpl in Hx.
  destruct Hx as [<-|[<-|[]]]; [by right|by left].
Defined.

(** X12 on the first sample alone. *)
Lemma single_sample_views_example :
  exists self,
    GenomePropertiesResults_init spec_assign_genome_property [sample1] example_tree
      = Return self /\
    rows (differing_property_results self) = ∅ /\
    rows (differing_step_results self) = ∅.
Proof.
  assert (exists self,
            GenomePropertiesResults_init spec_assign_genome_property
              [sample1] example_tree = Return self) as [self Hself].
  { eexists. vm_compute. reflexivity. }
  exists self. split; [exact Hself|].
  destruct (single_sample_views spec_assign_genome_property
              sample1 example_tree self Hself) as (Hp & Hs & _).
  by split.
Defined.

(** X13 on the two samples. *)
Lemma generate_json_tree_result_vectors_example :
  GenomePropertiesResults_init spec_assign_genome_property
    [sample1; sample2] example_tree = Return example_results /\
  exists tree_node,
    to_json_data example_results = Return (["sample1"; "sample2"], tree_node) /\
    forall node, node ∈ subnodes tree_node -> length (node_result node) = 2%nat.
Proof.
  split; [apply example_constructed|].
  apply (proj2 (generate_json_tree_result_vectors spec_assign_genome_property
                  [sample1; sample2] example_tree example_results
                  example_constructed)).
Defined.

End examples_further.
